(** * apartments-filters: the listing store and the debounce helper

    A shallow embedding of
      - src/entities/apartment/model/store.ts   (top level of this file)
      - src/shareds/lib/debounce/index.ts       (module [Debounce])
    and the properties of the specification that can be settled on it.

    Conventions of the embedding.
      - A JavaScript [number] is an integer of [Z]: prices, areas, floors and
        room counts are whole numbers in this application; NaN, infinities
        and rounding of the double format are outside the model.
      - A JavaScript string is a [string] holding its UTF-8 bytes.  The
        pattern of [extractRoomsCount] is an ASCII digit run followed by a
        fixed literal, and UTF-8 is self-synchronising, so matching on bytes
        finds the same matches as matching on UTF-16 code units.
      - An exception is a value of [Error]; code that can throw returns a
        [result].
      - [ref]s and [reactive] objects of the store are the fields of the
        record [state]; what lies outside the store (the storage slot, the
        console, the fetch collaborator's call count, pending asynchronous
        continuations) is the rest of the record [world]. *)

From Stdlib Require Import ZArith List String Ascii Bool Lia Permutation Sorted.
From stdpp Require Import base option list.
Import ListNotations.

Local Open Scope Z_scope.

(** ** Exceptions *)

Inductive Error : Type :=
| TypeError                 (* a property of undefined or null is read *)
| SyntaxError               (* thrown by JSON.parse *)
| Rejected (reason : Z).    (* rejection value of the fetch collaborator *)

Inductive result (A : Type) : Type :=
| Ok (a : A)
| Throw (e : Error).
Arguments Ok {A} a.
Arguments Throw {A} e.

#[global] Instance result_ret : MRet result := fun A a => Ok a.
#[global] Instance result_bind : MBind result :=
  fun A B f m => match m with Ok a => f a | Throw e => Throw e end.

(** Reading a property that must hold an object: [undefined.length],
    [undefined.includes], [[a, b] = undefined] all throw a TypeError. *)
Definition defined {A : Type} (o : option A) : result A :=
  match o with Some a => Ok a | None => Throw TypeError end.

(** ** Data model (store.ts, lines 4-34) *)

Inductive SortOption : Type :=
| price_asc | price_desc | square_asc | square_desc
| floor_asc | floor_desc | default.

(** Modelled from the spec: the declaration of [apartmentsItem] lives in
    ../types, which is not part of the sources at hand.  The store reads
    [title], [price], [square] and [floor]; [id] stands for the identifier
    and the display fields the core logic never touches. *)
Record apartmentsItem : Type := {
  id : Z;
  title : string;
  price : Z;
  square : Z;
  floor : Z;
}.

(** The value held by [filters].  The TypeScript interface declares all three
    properties, but [initPersistedState] assigns whatever object the stored
    JSON contains, so at run time each property may be [undefined] ([None]). *)
Module FilterState.
Record t : Type := {
  rooms : option (list Z);
  priceRange : option (Z * Z);
  squareRange : option (Z * Z);
}.
End FilterState.

Module RoomOption.
Record t : Type := {
  name : string;
  value : Z;
  active : bool;
  disabled : bool;
}.
Definition set_active (b : bool) (r : t) : t :=
  {| name := name r; value := value r; active := b; disabled := disabled r |}.
End RoomOption.

Definition DEFAULT_PRICE_MIN : Z := 5500000.
Definition DEFAULT_PRICE_MAX : Z := 18900000.
Definition DEFAULT_SQUARE_MIN : Z := 33.
Definition DEFAULT_SQUARE_MAX : Z := 123.
Definition PRICE_STEP : Z := 100000.
Definition ITEMS_PER_PAGE : nat := 5.
Definition LOAD_MORE_DELAY : nat := 1000.

(** ** extractRoomsCount (store.ts, lines 37-40) *)

Definition is_digit (c : ascii) : bool :=
  let n := nat_of_ascii c in ((48 <=? n) && (n <=? 57))%nat.

Definition digit_value (c : ascii) : Z := Z.of_nat (nat_of_ascii c) - 48.

(** The literal part of the pattern [/(\d+)-комнатная/]. *)
Definition rooms_marker : string := "-комнатная".

(** [\d+] followed by the marker, anchored at the head of [s], with the
    greedy, backtracking discipline of the regular-expression engine: at a
    digit, first try to let the repetition take more digits; when that fails,
    end the repetition here and match the literal.  The result is the text of
    capture group 1. *)
Fixpoint match_here (s : string) : option string :=
  match s with
  | EmptyString => None
  | String c s' =>
      if is_digit c then
        match match_here s' with
        | Some cap => Some (String c cap)
        | None => if String.prefix rooms_marker s'
                  then Some (String c EmptyString) else None
        end
      else None
  end.

(** [title.match(re)] for a regular expression without the [g] flag: the
    match at the leftmost position that has one. *)
Fixpoint regex_match (s : string) : option string :=
  match match_here s with
  | Some cap => Some cap
  | None => match s with
            | EmptyString => None
            | String _ s' => regex_match s'
            end
  end.

(** [parseInt(digits, 10)] on a non-empty run of decimal digits: the number
    the digits write.  [parseInt] returns that number as a double, which is
    the number itself up to [Number.MAX_SAFE_INTEGER] = 2^53 - 1; beyond,
    the double is rounded (or infinite), which integers do not show, and
    what is proved about the value of a digit run is stated within that
    bound. *)
Fixpoint parseInt_acc (acc : Z) (s : string) : Z :=
  match s with
  | EmptyString => acc
  | String c s' => parseInt_acc (10 * acc + digit_value c) s'
  end.

Definition parseInt10 (s : string) : Z := parseInt_acc 0 s.

Definition extractRoomsCount (title : string) : Z :=
  match regex_match title with
  | Some cap => parseInt10 cap
  | None => 0
  end.

(** ** filterApartments (store.ts, lines 145-169) *)

(** [Array.prototype.includes] on an array of numbers. *)
Definition includes (l : list Z) (x : Z) : bool := existsb (Z.eqb x) l.

(** [Array.prototype.filter] with a callback that may throw: the elements are
    visited in order and the first exception aborts the traversal. *)
Fixpoint Array_filter {A : Type} (cb : A -> result bool) (l : list A)
  : result (list A) :=
  match l with
  | [] => Ok []
  | x :: l' =>
      b ← cb x;
      r ← Array_filter cb l';
      mret (if b : bool then x :: r else r)
  end.

(** The callback of [filterApartments]. *)
Definition filter_callback (filters : FilterState.t) (apartment : apartmentsItem)
  : result bool :=
  rs ← defined (FilterState.rooms filters);
  if (0 <? length rs)%nat
     && negb (includes rs (extractRoomsCount (title apartment)))
  then mret false
  else
    '(priceMin, priceMax) ← defined (FilterState.priceRange filters);
    if (price apartment <? priceMin) || (price apartment >? priceMax)
    then mret false
    else
      '(squareMin, squareMax) ← defined (FilterState.squareRange filters);
      if (square apartment <? squareMin) || (square apartment >? squareMax)
      then mret false
      else mret true.

Definition filterApartments (filters : FilterState.t)
  (apartments : list apartmentsItem) : result (list apartmentsItem) :=
  Array_filter (filter_callback filters) apartments.

(** ** sortMapper and sortApartments (store.ts, lines 132-179) *)

Definition sortMapper (o : SortOption) (a b : apartmentsItem) : Z :=
  match o with
  | default => 0
  | price_asc => price a - price b
  | price_desc => price b - price a
  | square_asc => square a - square b
  | square_desc => square b - square a
  | floor_asc => floor a - floor b
  | floor_desc => floor b - floor a
  end.

(** [Array.prototype.sort(comparefn)].  The algorithm belongs to the engine;
    ECMAScript (since ES2019) requires it to be stable, and for a consistent
    comparator every stable sort returns the same array.  The model is the
    stable insertion sort: an element is placed after every element that
    does not compare greater than it ([comparefn(x, y) > 0] moves [x] behind
    [y]). *)
Fixpoint sort_insert {A : Type} (comparefn : A -> A -> Z) (x : A) (l : list A)
  : list A :=
  match l with
  | [] => [x]
  | y :: l' =>
      if comparefn y x >? 0 then x :: y :: l'
      else y :: sort_insert comparefn x l'
  end.

Definition Array_sort {A : Type} (comparefn : A -> A -> Z) (l : list A)
  : list A :=
  fold_left (fun acc x => sort_insert comparefn x acc) l [].

Definition sortApartments (apartments : list apartmentsItem)
  (sortOption : SortOption) : list apartmentsItem :=
  match sortOption with
  | default => apartments
  | _ => Array_sort (sortMapper sortOption) apartments
  end.


(** ** The store and what surrounds it (store.ts, lines 42-84) *)

Record state : Type := {
  allApartments : list apartmentsItem;
  displayedApartments : list apartmentsItem;
  filteredApartments : list apartmentsItem;
  currentPage : nat;
  itemsPerPage : nat;
  isLoading : bool;
  error : option Error;
  sortBy : SortOption;
  hasInitialized : bool;
  rooms : list RoomOption.t;
  filters : FilterState.t;
}.

(** A value returned by [JSON.parse].  [JNull] is the text [null], on which
    a property access throws.  [JValue f o] is any other value: [f] is its
    member [filters] and [o] its member [sortBy], [None] when the member is
    absent or null (the two cases [??] replaces).  Members that are present
    are taken to have the declared types; a primitive or an array is a
    [JValue None None]. *)
Inductive json : Type :=
| JNull
| JValue (filters : option FilterState.t) (sortBy : option SortOption).

(** The text kept under FILTERS_STORAGE_KEY, by what the store can observe
    of it: whether it is the empty string, and what [JSON.parse] makes of
    it. *)
Inductive stored : Type :=
| Text_empty                (* the empty string, falsy *)
| Text_invalid              (* JSON.parse throws a SyntaxError *)
| Text_json (v : json).     (* JSON.parse returns v *)

Inductive log : Type :=
| warn_restore (e : Error)      (* console.warn in initPersistedState *)
| error_fetch (e : Error)       (* console.error in fetchApartments *)
| error_loadMore (e : Error).   (* console.error in loadMore *)

(** The answer of the fetch collaborator [getApartments]. *)
Definition response : Type := result (list apartmentsItem).

Record world : Type := {
  store : state;
  storage : option stored;      (* localStorage.getItem(FILTERS_STORAGE_KEY) *)
  console : list log;           (* newest entry first *)
  fetch_calls : nat;            (* invocations of getApartments so far *)
  pending_fetches : nat;        (* fetchApartments suspended at its await *)
  pending_delays : nat;         (* loadMore suspended at its await *)
}.

Definition initial_rooms : list RoomOption.t := [
  {| RoomOption.name := "1к"; RoomOption.value := 1;
     RoomOption.active := false; RoomOption.disabled := false |};
  {| RoomOption.name := "2к"; RoomOption.value := 2;
     RoomOption.active := true; RoomOption.disabled := false |};
  {| RoomOption.name := "3к"; RoomOption.value := 3;
     RoomOption.active := false; RoomOption.disabled := false |};
  {| RoomOption.name := "4к"; RoomOption.value := 4;
     RoomOption.active := false; RoomOption.disabled := true |}
].

Definition default_filters : FilterState.t := {|
  FilterState.rooms := Some [];
  FilterState.priceRange := Some (DEFAULT_PRICE_MIN, DEFAULT_PRICE_MAX);
  FilterState.squareRange := Some (DEFAULT_SQUARE_MIN, DEFAULT_SQUARE_MAX);
|}.

(** The store as [defineStore]'s setup function builds it. *)
Definition initial_state : state := {|
  allApartments := [];
  displayedApartments := [];
  filteredApartments := [];
  currentPage := 1;
  itemsPerPage := ITEMS_PER_PAGE;
  isLoading := false;
  error := None;
  sortBy := default;
  hasInitialized := false;
  rooms := initial_rooms;
  filters := default_filters;
|}.

Definition initial_world (slot : option stored) : world := {|
  store := initial_state;
  storage := slot;
  console := [];
  fetch_calls := 0;
  pending_fetches := 0;
  pending_delays := 0;
|}.

(** *** Assignments to the refs *)

Definition set_allApartments (v : list apartmentsItem) (s : state) : state :=
  {| allApartments := v; displayedApartments := displayedApartments s;
     filteredApartments := filteredApartments s; currentPage := currentPage s;
     itemsPerPage := itemsPerPage s; isLoading := isLoading s;
     error := error s; sortBy := sortBy s;
     hasInitialized := hasInitialized s; rooms := rooms s;
     filters := filters s |}.

Definition set_displayedApartments (v : list apartmentsItem) (s : state) : state :=
  {| allApartments := allApartments s; displayedApartments := v;
     filteredApartments := filteredApartments s; currentPage := currentPage s;
     itemsPerPage := itemsPerPage s; isLoading := isLoading s;
     error := error s; sortBy := sortBy s;
     hasInitialized := hasInitialized s; rooms := rooms s;
     filters := filters s |}.

Definition set_filteredApartments (v : list apartmentsItem) (s : state) : state :=
  {| allApartments := allApartments s;
     displayedApartments := displayedApartments s;
     filteredApartments := v; currentPage := currentPage s;
     itemsPerPage := itemsPerPage s; isLoading := isLoading s;
     error := error s; sortBy := sortBy s;
     hasInitialized := hasInitialized s; rooms := rooms s;
     filters := filters s |}.

Definition set_currentPage (v : nat) (s : state) : state :=
  {| allApartments := allApartments s;
     displayedApartments := displayedApartments s;
     filteredApartments := filteredApartments s; currentPage := v;
     itemsPerPage := itemsPerPage s; isLoading := isLoading s;
     error := error s; sortBy := sortBy s;
     hasInitialized := hasInitialized s; rooms := rooms s;
     filters := filters s |}.

Definition set_isLoading (v : bool) (s : state) : state :=
  {| allApartments := allApartments s;
     displayedApartments := displayedApartments s;
     filteredApartments := filteredApartments s; currentPage := currentPage s;
     itemsPerPage := itemsPerPage s; isLoading := v;
     error := error s; sortBy := sortBy s;
     hasInitialized := hasInitialized s; rooms := rooms s;
     filters := filters s |}.

Definition set_error (v : option Error) (s : state) : state :=
  {| allApartments := allApartments s;
     displayedApartments := displayedApartments s;
     filteredApartments := filteredApartments s; currentPage := currentPage s;
     itemsPerPage := itemsPerPage s; isLoading := isLoading s;
     error := v; sortBy := sortBy s;
     hasInitialized := hasInitialized s; rooms := rooms s;
     filters := filters s |}.

Definition set_sortBy (v : SortOption) (s : state) : state :=
  {| allApartments := allApartments s;
     displayedApartments := displayedApartments s;
     filteredApartments := filteredApartments s; currentPage := currentPage s;
     itemsPerPage := itemsPerPage s; isLoading := isLoading s;
     error := error s; sortBy := v;
     hasInitialized := hasInitialized s; rooms := rooms s;
     filters := filters s |}.

Definition set_hasInitialized (v : bool) (s : state) : state :=
  {| allApartments := allApartments s;
     displayedApartments := displayedApartments s;
     filteredApartments := filteredApartments s; currentPage := currentPage s;
     itemsPerPage := itemsPerPage s; isLoading := isLoading s;
     error := error s; sortBy := sortBy s;
     hasInitialized := v; rooms := rooms s;
     filters := filters s |}.

Definition set_rooms (v : list RoomOption.t) (s : state) : state :=
  {| allApartments := allApartments s;
     displayedApartments := displayedApartments s;
     filteredApartments := filteredApartments s; currentPage := currentPage s;
     itemsPerPage := itemsPerPage s; isLoading := isLoading s;
     error := error s; sortBy := sortBy s;
     hasInitialized := hasInitialized s; rooms := v;
     filters := filters s |}.

Definition set_filters (v : FilterState.t) (s : state) : state :=
  {| allApartments := allApartments s;
     displayedApartments := displayedApartments s;
     filteredApartments := filteredApartments s; currentPage := currentPage s;
     itemsPerPage := itemsPerPage s; isLoading := isLoading s;
     error := error s; sortBy := sortBy s;
     hasInitialized := hasInitialized s; rooms := rooms s;
     filters := v |}.

Definition with_store (f : state -> state) (w : world) : world :=
  {| store := f (store w); storage := storage w; console := console w;
     fetch_calls := fetch_calls w; pending_fetches := pending_fetches w;
     pending_delays := pending_delays w |}.

Definition with_storage (v : option stored) (w : world) : world :=
  {| store := store w; storage := v; console := console w;
     fetch_calls := fetch_calls w; pending_fetches := pending_fetches w;
     pending_delays := pending_delays w |}.

Definition with_console (f : list log -> list log) (w : world) : world :=
  {| store := store w; storage := storage w; console := f (console w);
     fetch_calls := fetch_calls w; pending_fetches := pending_fetches w;
     pending_delays := pending_delays w |}.

Definition with_fetch_calls (f : nat -> nat) (w : world) : world :=
  {| store := store w; storage := storage w; console := console w;
     fetch_calls := f (fetch_calls w); pending_fetches := pending_fetches w;
     pending_delays := pending_delays w |}.

Definition with_pending_fetches (f : nat -> nat) (w : world) : world :=
  {| store := store w; storage := storage w; console := console w;
     fetch_calls := fetch_calls w; pending_fetches := f (pending_fetches w);
     pending_delays := pending_delays w |}.

Definition with_pending_delays (f : nat -> nat) (w : world) : world :=
  {| store := store w; storage := storage w; console := console w;
     fetch_calls := fetch_calls w; pending_fetches := pending_fetches w;
     pending_delays := f (pending_delays w) |}.

(** *** The monad of store code: a world that is threaded through, and an
    exception that aborts the rest of the block *)

Definition M (A : Type) : Type := world -> result A * world.

#[global] Instance M_ret : MRet M := fun A a w => (Ok a, w).
#[global] Instance M_bind : MBind M := fun A B f m w =>
  match m w with
  | (Ok a, w') => f a w'
  | (Throw e, w') => (Throw e, w')
  end.

Definition get : M state := fun w => (Ok (store w), w).
Definition assign (f : state -> state) : M unit :=
  fun w => (Ok tt, with_store f w).
Definition effect (f : world -> world) : M unit := fun w => (Ok tt, f w).
Definition lift {A : Type} (r : result A) : M A := fun w => (r, w).

(** [try { body } catch (e) { handler(e) }] *)
Definition try_catch {A : Type} (body : M A) (handler : Error -> M A) : M A :=
  fun w => match body w with
           | (Ok a, w') => (Ok a, w')
           | (Throw e, w') => handler e w'
           end.

(** [try { body } finally { cleanup }] *)
Definition try_finally {A : Type} (body : M A) (cleanup : M unit) : M A :=
  fun w => match body w with
           | (r, w') => match cleanup w' with
                        | (Ok _, w'') => (r, w'')
                        | (Throw e, w'') => (Throw e, w'')
                        end
           end.

(** The world an action leaves behind, whether it returned or threw. *)
Definition exec {A : Type} (m : M A) (w : world) : world := snd (m w).

(** ** Persistence (store.ts, lines 86-101 and 125-130) *)

Definition localStorage_getItem : M (option stored) :=
  fun w => (Ok (storage w), w).

Definition localStorage_setItem (v : stored) : M unit :=
  effect (with_storage (Some v)).

Definition console_log (entry : log) : M unit :=
  effect (with_console (cons entry)).

Definition JSON_parse (text : stored) : result json :=
  match text with
  | Text_json v => Ok v
  | Text_empty | Text_invalid => Throw SyntaxError
  end.

(** [JSON.stringify({ filters, sortBy })], read back as the text it is. *)
Definition JSON_stringify (f : FilterState.t) (o : SortOption) : stored :=
  Text_json (JValue (Some f) (Some o)).

(** [parsed.filters] and [parsed.sortBy]: a property read throws on null. *)
Definition member_filters (parsed : json) : result (option FilterState.t) :=
  match parsed with
  | JNull => Throw TypeError
  | JValue f _ => Ok f
  end.

Definition member_sortBy (parsed : json) : result (option SortOption) :=
  match parsed with
  | JNull => Throw TypeError
  | JValue _ o => Ok o
  end.

(** [a ?? b] *)
Definition nullish {A : Type} (a : option A) (b : A) : A :=
  match a with Some x => x | None => b end.

(** [arr.forEach(cb)] where [cb] updates the element it is given in place
    and may throw: the elements before the failing one keep their update,
    the others are left as they were. *)
Fixpoint forEach_update {A : Type} (cb : A -> result A) (l : list A)
  : list A * option Error :=
  match l with
  | [] => ([], None)
  | x :: l' =>
      match cb x with
      | Ok x' => let (r, e) := forEach_update cb l' in (x' :: r, e)
      | Throw e => (x :: l', Some e)
      end
  end.

(** [rooms.forEach((room) => { room.active =
      filters.value.rooms.includes(room.value) })] *)
Definition sync_rooms : M unit :=
  s ← get;
  let cb room :=
    rs ← defined (FilterState.rooms (filters s));
    mret (RoomOption.set_active (includes rs (RoomOption.value room)) room) in
  let (rooms', thrown) := forEach_update cb (rooms s) in
  assign (set_rooms rooms');;
  match thrown with
  | None => mret tt
  | Some e => lift (Throw e)
  end.

Definition initPersistedState : M unit :=
  saved ← localStorage_getItem;
  match saved with
  | None | Some Text_empty => mret tt
  | Some text =>
      try_catch
        (parsed ← lift (JSON_parse text);
         pf ← lift (member_filters parsed);
         s ← get;
         assign (set_filters (nullish pf (filters s)));;
         po ← lift (member_sortBy parsed);
         assign (set_sortBy (nullish po default));;
         sync_rooms)
        (fun e => console_log (warn_restore e))
  end.

Definition saveFilters : M unit :=
  s ← get;
  localStorage_setItem (JSON_stringify (filters s) (sortBy s)).

(** ** Derived values (store.ts, lines 103-122) *)

Definition hasMoreItems (s : state) : bool :=
  (length (displayedApartments s) <? length (filteredApartments s))%nat.

(** [Math.ceil(length / itemsPerPage)]; [itemsPerPage] is 5 throughout, and
    the quotient by 0, which JavaScript makes NaN or Infinity, is not
    represented. *)
Definition totalPages (s : state) : nat :=
  ((length (filteredApartments s) + itemsPerPage s - 1) / itemsPerPage s)%nat.

Definition isEmpty (s : state) : bool :=
  hasInitialized s && negb (isLoading s)
  && (0 <? length (allApartments s))%nat
  && (length (filteredApartments s) =? 0)%nat.

Definition hasNoData (s : state) : bool :=
  negb (isLoading s) && (length (allApartments s) =? 0)%nat.

(** ** applyFiltersAndSort (store.ts, lines 181-193) *)

Definition applyFiltersAndSort : M unit :=
  s ← get;
  if (length (allApartments s) =? 0)%nat then mret tt
  else
    filtered ← lift (filterApartments (filters s) (allApartments s));
    let sorted := sortApartments filtered (sortBy s) in
    assign (set_filteredApartments sorted);;
    assign (set_currentPage 1);;
    s ← get;
    assign (set_displayedApartments
              (take (itemsPerPage s) (filteredApartments s))).

(** ** fetchApartments (store.ts, lines 195-213)

    An [async] function runs up to its [await] when it is called and the
    rest when the awaited promise settles; other actions may run in between.
    [fetchApartments_begin] is the first part: it answers the index of the
    call it made to [getApartments], or [None] when the guard returned.
    [fetchApartments_resume] is the second part, given the outcome of the
    promise. *)

(** [getApartments()]: the collaborator is invoked and its promise is
    pending; the answer is the index of this invocation. *)
Definition call_getApartments : M nat :=
  fun w => (Ok (fetch_calls w),
            with_pending_fetches S (with_fetch_calls S w)).

Definition fetchApartments_begin : M (option nat) :=
  s ← get;
  if (0 <? length (allApartments s))%nat then mret None
  else
    assign (set_isLoading true);;
    assign (set_error None);;
    k ← call_getApartments;
    mret (Some k).

Definition fetchApartments_resume (outcome : response) : M unit :=
  effect (with_pending_fetches Nat.pred);;
  try_finally
    (try_catch
       (data ← lift outcome;
        assign (set_allApartments data);;
        assign (set_hasInitialized true);;
        initPersistedState;;
        applyFiltersAndSort)
       (fun err =>
          assign (set_error (Some err));;
          console_log (error_fetch err)))
    (assign (set_isLoading false)).

(** The call awaited by its caller: nothing else runs while it is suspended.
    [getApartments k] is the outcome of the collaborator's [k]-th call. *)
Definition fetchApartments (getApartments : nat -> response) : M unit :=
  started ← fetchApartments_begin;
  match started with
  | None => mret tt
  | Some k => fetchApartments_resume (getApartments k)
  end.

(** ** loadMore (store.ts, lines 215-237) *)

Definition loadMore_begin : M bool :=
  s ← get;
  if negb (hasMoreItems s) || isLoading s then mret false
  else
    assign (set_isLoading true);;
    effect (with_pending_delays S);;
    mret true.

(** The part after [await new Promise(resolve => setTimeout(resolve, ...))];
    that promise is never rejected. *)
Definition loadMore_resume : M unit :=
  effect (with_pending_delays Nat.pred);;
  try_finally
    (try_catch
       (s ← get;
        assign (set_currentPage (S (currentPage s)));;
        s ← get;
        let startIndex := 0%nat in
        let endIndex := (currentPage s * itemsPerPage s)%nat in
        assign (set_displayedApartments
                  (drop startIndex (take endIndex (filteredApartments s)))))
       (fun err =>
          console_log (error_loadMore err);;
          assign (set_error (Some err))))
    (assign (set_isLoading false)).

Definition loadMore : M unit :=
  started ← loadMore_begin;
  if started : bool then loadMore_resume else mret tt.

(** ** Mutators (store.ts, lines 239-293) *)

Definition setSortBy (newSortBy : SortOption) : M unit :=
  assign (set_sortBy newSortBy);;
  applyFiltersAndSort;;
  saveFilters.

Definition setRoomsFilter (rooms : list Z) : M unit :=
  assign (fun s => set_filters
            {| FilterState.rooms := Some rooms;
               FilterState.priceRange := FilterState.priceRange (filters s);
               FilterState.squareRange := FilterState.squareRange (filters s) |} s);;
  applyFiltersAndSort;;
  saveFilters.

Definition resetRooms : M unit :=
  assign (fun s => set_rooms (map (RoomOption.set_active false) (rooms s)) s).

Definition setPriceRange (range : Z * Z) : M unit :=
  assign (fun s => set_filters
            {| FilterState.rooms := FilterState.rooms (filters s);
               FilterState.priceRange := Some range;
               FilterState.squareRange := FilterState.squareRange (filters s) |} s);;
  applyFiltersAndSort;;
  saveFilters.

Definition setSquareRange (range : Z * Z) : M unit :=
  assign (fun s => set_filters
            {| FilterState.rooms := FilterState.rooms (filters s);
               FilterState.priceRange := FilterState.priceRange (filters s);
               FilterState.squareRange := Some range |} s);;
  applyFiltersAndSort;;
  saveFilters.

Definition resetFilters : M unit :=
  assign (set_filters default_filters);;
  assign (set_sortBy default);;
  applyFiltersAndSort;;
  saveFilters.

Definition reset : M unit :=
  assign (set_allApartments []);;
  assign (set_displayedApartments []);;
  assign (set_filteredApartments []);;
  assign (set_currentPage 1);;
  assign (set_isLoading false);;
  assign (set_error None);;
  assign (set_sortBy default);;
  assign (set_hasInitialized false);;
  assign (set_filters default_filters);;
  saveFilters.

(** ** Runs of the store

    One step is one turn of the event loop: an action called by the user
    interface, the settling of a pending fetch, the timer of a pending
    [loadMore], or a change of the storage slot made outside the store. *)

Inductive step : world -> world -> Prop :=
| step_fetchApartments w :
    step w (exec fetchApartments_begin w)
| step_fetch_settled w outcome :
    (0 < pending_fetches w)%nat ->
    step w (exec (fetchApartments_resume outcome) w)
| step_loadMore w :
    step w (exec loadMore_begin w)
| step_delay_elapsed w :
    (0 < pending_delays w)%nat ->
    step w (exec loadMore_resume w)
| step_setSortBy w o :
    step w (exec (setSortBy o) w)
| step_setRoomsFilter w rs :
    step w (exec (setRoomsFilter rs) w)
| step_resetRooms w :
    step w (exec resetRooms w)
| step_setPriceRange w range :
    step w (exec (setPriceRange range) w)
| step_setSquareRange w range :
    step w (exec (setSquareRange range) w)
| step_resetFilters w :
    step w (exec resetFilters w)
| step_reset w :
    step w (exec reset w)
| step_storage_changed w slot :
    step w (with_storage slot w).

(** The worlds a session can be in: it starts from the freshly built store,
    whatever the slot holds. *)
Inductive reachable : world -> Prop :=
| reachable_initial slot : reachable (initial_world slot)
| reachable_step w w' : reachable w -> step w w' -> reachable w'.

(** ** debounce (debounce/index.ts)

    The wrapper lives in a runtime that owns a clock and a table of timers.
    Time is counted in milliseconds, the unit of [wait].  The runtime uses
    the delay it is given when that delay is between 1 and 2^31 - 1, and a
    delay of 1 otherwise ([timer_delay]).  Every invocation of the wrapper
    is a turn of the event loop of its own; a timer that is due runs in a
    turn before any turn that starts at or after its due time.  The wrapped
    function [func] is any function of its arguments that returns or throws;
    each invocation of it is recorded with its time and arguments.  It is
    assumed not to call the wrapper itself. *)

Module Debounce.
Local Open Scope nat_scope.

(** The longest delay a timer can have, 2^31 - 1. *)
Definition TIMEOUT_MAX : Z := 2147483647.

(** The delay [setTimeout(callback, wait)] really uses: a delay below 1 or
    above [TIMEOUT_MAX] is set to 1. *)
Definition timer_delay (wait : nat) : nat :=
  if (wait <? 1) || (TIMEOUT_MAX <? Z.of_nat wait)%Z then 1 else wait.
Arguments timer_delay : simpl never.

Section Debounce.

(** [Parameters<T>] *)
Context {Args : Type}.

(** The wrapped function, by whether it returns or throws. *)
Variable func : Args -> result unit.

(** A timer created by the wrapper: its callback is the closure
    [() => { func(...args); timeout = null }], known by the [args] it
    captured. *)
Record timer : Type := {
  handle : nat;
  due : nat;
  args : Args;
}.

Record env : Type := {
  now : nat;                      (* the clock *)
  next_handle : nat;              (* the handle setTimeout hands out next *)
  queue : list timer;             (* timers set and neither run nor cleared *)
  timeout : option nat;           (* the closure's variable; None is null *)
  invoked : list (nat * Args);    (* invocations of func, oldest first *)
}.

Definition initial : env := {|
  now := 0; next_handle := 1; queue := []; timeout := None; invoked := [];
|}.

Definition setTimeout (a : Args) (wait : nat) (e : env) : nat * env :=
  let h := next_handle e in
  (h, {| now := now e; next_handle := S h;
         queue := queue e
                  ++ [{| handle := h; due := now e + timer_delay wait;
                         args := a |}];
         timeout := timeout e; invoked := invoked e |}).

Definition clearTimeout (h : nat) (e : env) : env :=
  {| now := now e; next_handle := next_handle e;
     queue := List.filter (fun t => negb (handle t =? h)%nat) (queue e);
     timeout := timeout e; invoked := invoked e |}.

Definition set_timeout (v : option nat) (e : env) : env :=
  {| now := now e; next_handle := next_handle e; queue := queue e;
     timeout := v; invoked := invoked e |}.

(** The function [debounce(func, wait)] returns, called with [a]. *)
Definition debounced (wait : nat) (a : Args) (e : env) : env :=
  let e1 := match timeout e with
            | Some h => clearTimeout h e
            | None => e
            end in
  let (h, e2) := setTimeout a wait e1 in
  set_timeout (Some h) e2.

(** The turn of timer [t]: the clock reaches its due time, the timer leaves
    the table, and its callback runs [func(...args); timeout = null]; when
    [func] throws, the assignment is not reached. *)
Definition fire (t : timer) (e : env) : env :=
  let at_time := Nat.max (now e) (due t) in
  {| now := at_time; next_handle := next_handle e;
     queue := List.filter (fun t' => negb (handle t' =? handle t)%nat) (queue e);
     timeout := match func (args t) with
                | Ok _ => None
                | Throw _ => timeout e
                end;
     invoked := invoked e ++ [(at_time, args t)] |}.

(** The timer that runs next: the earliest due, the oldest among equals. *)
Fixpoint earliest (q : list timer) : option timer :=
  match q with
  | [] => None
  | t :: q' =>
      match earliest q' with
      | Some t' => if (due t' <? due t)%nat then Some t' else Some t
      | None => Some t
      end
  end.

(** Run the timers due up to [limit] ([None]: all of them), earliest first.
    A callback sets no timer, so [fuel] = the size of the table is enough. *)
Fixpoint run_timers (fuel : nat) (limit : option nat) (e : env) : env :=
  match fuel with
  | O => e
  | S fuel' =>
      match earliest (queue e) with
      | None => e
      | Some t =>
          if match limit with
             | Some l => (due t <=? l)%nat
             | None => true
             end
          then run_timers fuel' limit (fire t e)
          else e
      end
  end.

(** Let the clock reach [t]. *)
Definition advance (t : nat) (e : env) : env :=
  let e' := run_timers (length (queue e)) (Some t) e in
  {| now := Nat.max (now e') t; next_handle := next_handle e';
     queue := queue e'; timeout := timeout e'; invoked := invoked e' |}.

(** The wrapper is called with [snd c] at time [fst c]. *)
Definition call_at (wait : nat) (e : env) (c : nat * Args) : env :=
  debounced wait (snd c) (advance (fst c) e).

Definition run (wait : nat) (calls : list (nat * Args)) : env :=
  fold_left (call_at wait) calls initial.

(** No further call comes: the remaining timers run. *)
Definition settle (e : env) : env :=
  run_timers (length (queue e)) None e.

(** What the specification expects of a schedule of calls: a call leads to
    an invocation of [func] exactly when no other call follows within
    [wait]; the invocation happens [wait] after the call, with its
    arguments. *)
Fixpoint trailing_from (wait : nat) (pending : nat * Args)
  (rest : list (nat * Args)) : list (nat * Args) :=
  match rest with
  | [] => [(fst pending + wait, snd pending)]
  | c :: rest' =>
      if (fst c <? fst pending + wait)%nat
      then trailing_from wait c rest'
      else (fst pending + wait, snd pending) :: trailing_from wait c rest'
  end.

Definition trailing (wait : nat) (calls : list (nat * Args))
  : list (nat * Args) :=
  match calls with
  | [] => []
  | c :: rest => trailing_from wait c rest
  end.

(** The calls are listed in the order of their times. *)
Fixpoint chronological (calls : list (nat * Args)) : Prop :=
  match calls with
  | [] => True
  | c :: rest =>
      match rest with
      | [] => True
      | c' :: _ => (fst c <= fst c')%nat
      end /\ chronological rest
  end.

(** After the wrapper was called with [p], for a [wait] that the runtime
    uses as it is: the clock shows the time of the call, and the one timer
    of the table is the call's own, due [wait] later, with the handle kept
    in [timeout]. *)
Definition pending (wait : nat) (p : nat * Args) (e : env) : Prop :=
  now e = fst p
  /\ exists h : nat,
       queue e = [{| handle := h; due := fst p + wait; args := snd p |}]
       /\ timeout e = Some h.

(** Before any call, or once the last timer has run: no timer is set
    ([timeout] may still hold the handle of a timer whose callback threw). *)
Definition idle (e : env) : Prop :=
  queue e = [].

End Debounce.
Arguments timer : clear implicits.
Arguments env : clear implicits.
End Debounce.

(** The number a sort option orders by: the comparator of [sortMapper] is
    the difference of the keys of its arguments. *)
Definition sort_key (o : SortOption) (a : apartmentsItem) : Z :=
  match o with
  | default => 0
  | price_asc => price a
  | price_desc => - price a
  | square_asc => square a
  | square_desc => - square a
  | floor_asc => floor a
  | floor_desc => - floor a
  end.

(** A filter state that has the shape of the [FilterState] interface. *)
Definition typed_filters (rs : list Z) (priceRange squareRange : Z * Z)
  : FilterState.t := {|
  FilterState.rooms := Some rs;
  FilterState.priceRange := Some priceRange;
  FilterState.squareRange := Some squareRange;
|}.

(** What the callback of [filterApartments] answers for such a state. *)
Definition passes (rs : list Z) (priceRange squareRange : Z * Z)
  (a : apartmentsItem) : bool :=
  (negb (0 <? length rs)%nat || includes rs (extractRoomsCount (title a)))
  && (fst priceRange <=? price a) && (price a <=? snd priceRange)
  && (fst squareRange <=? square a) && (square a <=? snd squareRange).

(** What [sync_rooms] does to one room option when the room list is [rs]. *)
Definition sync_room (rs : list Z) (room : RoomOption.t) : RoomOption.t :=
  RoomOption.set_active (includes rs (RoomOption.value room)) room.

(** A stored payload whose [filters] member has a room list and no ranges,
    and which has no [sortBy] member: the text of { filters: { rooms: [2] } }. *)
Definition payload_without_ranges : stored :=
  Text_json
    (JValue (Some {| FilterState.rooms := Some [2];
                     FilterState.priceRange := None;
                     FilterState.squareRange := None |})
            None).

(** What the displayed list is meant to be at all times. *)
Definition window_invariant (s : state) : Prop :=
  displayedApartments s
  = take (currentPage s * itemsPerPage s) (filteredApartments s).

(** Two stores with the same lists, page and page size. *)
Definition same_window (s s' : state) : Prop :=
  displayedApartments s' = displayedApartments s
  /\ filteredApartments s' = filteredApartments s
  /\ currentPage s' = currentPage s
  /\ itemsPerPage s' = itemsPerPage s.

(** Sample data. *)
Definition flat (i rooms_count : Z) (p sq : Z) : apartmentsItem :=
  {| id := i;
     title := match rooms_count with
              | 1 => "1-комнатная квартира"
              | 2 => "2-комнатная квартира"
              | 3 => "3-комнатная квартира"
              | _ => "Студия"
              end;
     price := p; square := sq; floor := i |}.

Definition three_flats : list apartmentsItem :=
  [flat 1 2 6000000 50; flat 2 1 7000000 40; flat 3 2 9000000 60].

Definition twelve_flats : list apartmentsItem :=
  map (fun i => flat i 2 (6000000 + i) 50)
    [1; 2; 3; 4; 5; 6; 7; 8; 9; 10; 11; 12].

(** Definitions used by the further properties. *)

(** [Number.MAX_SAFE_INTEGER], 2^53 - 1: up to it every integer is a
    double. *)
Definition MAX_SAFE_INTEGER : Z := 9007199254740991.

Fixpoint all_digits (s : string) : bool :=
  match s with
  | EmptyString => true
  | String c s' => is_digit c && all_digits s'
  end.

Fixpoint no_digit (s : string) : bool :=
  match s with
  | EmptyString => true
  | String c s' => negb (is_digit c) && no_digit s'
  end.

Definition rooms_test (rs : list Z) (a : apartmentsItem) : bool :=
  negb (0 <? length rs)%nat || includes rs (extractRoomsCount (title a)).

Definition price_test (priceRange : Z * Z) (a : apartmentsItem) : bool :=
  (fst priceRange <=? price a) && (price a <=? snd priceRange).

(** The store a mutator leaves when the filters it has set are
    [typed_filters rs pr sr] and the sort is [o]. *)
Definition recomputed (rs : list Z) (pr sr : Z * Z) (o : SortOption)
  (s : state) : state :=
  let s0 := set_sortBy o (set_filters (typed_filters rs pr sr) s) in
  let sorted :=
    sortApartments (List.filter (passes rs pr sr) (allApartments s)) o in
  if (length (allApartments s) =? 0)%nat then s0
  else set_displayedApartments (take (itemsPerPage s) sorted)
         (set_currentPage 1 (set_filteredApartments sorted s0)).

(** Facts every session keeps about paging and about the loading flag. *)
Definition paging_invariant (w : world) : Prop :=
  (1 <= currentPage (store w))%nat
  /\ itemsPerPage (store w) = ITEMS_PER_PAGE
  /\ (isLoading (store w) = true ->
      (0 < pending_fetches w + pending_delays w)%nat).

(** [loadMore] called and awaited [k] times in a row. *)
Fixpoint loadMore_times (k : nat) (w : world) : world :=
  match k with
  | O => w
  | S k' => loadMore_times k' (exec loadMore w)
  end.

(** Every call comes less than [wait] after the one before. *)
Fixpoint rapid {Args : Type} (wait : nat) (calls : list (nat * Args)) : Prop :=
  match calls with
  | [] => True
  | c :: rest =>
      match rest with
      | [] => True
      | c' :: _ => (fst c' < fst c + wait)%nat
      end /\ rapid wait rest
  end.

(** Every call comes [wait] or more after the one before. *)
Fixpoint spaced {Args : Type} (wait : nat) (calls : list (nat * Args)) : Prop :=
  match calls with
  | [] => True
  | c :: rest =>
      match rest with
      | [] => True
      | c' :: _ => (fst c + wait <= fst c')%nat
      end /\ spaced wait rest
  end.

(** Sample worlds. *)
Definition stored_choice : stored :=
  Text_json
    (JValue (Some (typed_filters [2] (5500000, 8000000) (33, 123)))
            (Some price_desc)).

Definition fetched_world : world :=
  exec (fetchApartments (fun _ => Ok twelve_flats)) (initial_world None).

Definition loading_world : world :=
  exec fetchApartments_begin (initial_world None).

Definition broken_world : world :=
  exec (fetchApartments (fun _ => Ok three_flats))
    (initial_world (Some payload_without_ranges)).

(** * Properties *)

(** ** Running store code *)

Lemma exec_bind {A B : Type} (m : M A) (f : A -> M B) (w : world) :
  exec (m ≫= f) w =
  match m w with
  | (Ok a, w') => exec (f a) w'
  | (Throw _, w') => w'
  end.
Proof.
  unfold exec, mbind, M_bind. destruct (m w) as [[a | e] w']; reflexivity.
Qed.

(** ** filterApartments *)

Section Filter.

Variables (rs : list Z) (priceRange squareRange : Z * Z).

Lemma filter_callback_typed (a : apartmentsItem) :
  filter_callback (typed_filters rs priceRange squareRange) a
  = Ok (passes rs priceRange squareRange a).
Proof.
  unfold filter_callback, passes, typed_filters; simpl.
  destruct priceRange as [pmin pmax], squareRange as [smin smax]; simpl.
  destruct (0 <? length rs)%nat; simpl;
    [destruct (includes rs _); simpl; [|reflexivity]|];
    rewrite !Z.gtb_ltb;
    destruct (Z.ltb_spec (price a) pmin), (Z.ltb_spec pmax (price a)),
      (Z.ltb_spec (square a) smin), (Z.ltb_spec smax (square a));
    simpl;
    repeat match goal with
      | |- context [?x <=? ?y] => destruct (Z.leb_spec x y); try lia
      end; reflexivity.
Qed.

Lemma passes_iff (a : apartmentsItem) :
  passes rs priceRange squareRange a = true <->
  (rs = [] \/ In (extractRoomsCount (title a)) rs)
  /\ fst priceRange <= price a <= snd priceRange
  /\ fst squareRange <= square a <= snd squareRange.
Proof.
  unfold passes.
  rewrite !andb_true_iff, orb_true_iff, negb_true_iff, !Z.leb_le.
  assert (Hrooms : (0 <? length rs)%nat = false <-> rs = []).
  { destruct rs; unfold Nat.ltb; simpl; split; intros; congruence. }
  assert (Hin : includes rs (extractRoomsCount (title a)) = true
                <-> In (extractRoomsCount (title a)) rs).
  { unfold includes. rewrite existsb_exists. split.
    - intros (y & Hy & Heq). apply Z.eqb_eq in Heq. now subst.
    - intros Hy. eexists. split; [exact Hy | apply Z.eqb_refl]. }
  rewrite Hrooms, Hin. tauto.
Qed.

End Filter.

Lemma Array_filter_total {A : Type} (cb : A -> result bool) (f : A -> bool)
  (l : list A) :
  (forall x, cb x = Ok (f x)) -> Array_filter cb l = Ok (List.filter f l).
Proof.
  intros Hcb. induction l as [| x l IH]; simpl; [reflexivity |].
  rewrite Hcb, IH. simpl. destruct (f x); reflexivity.
Qed.

Lemma List_filter_sublist {A : Type} (f : A -> bool) (l : list A) :
  sublist (List.filter f l) l.
Proof.
  induction l as [| x l IH]; simpl; [constructor |].
  destruct (f x); [apply sublist_skip | apply sublist_cons]; exact IH.
Qed.

(** The recompute pipeline, the one caller of [filterApartments], never
    assigns [allApartments]. *)
Lemma applyFiltersAndSort_allApartments (w : world) :
  allApartments (store (exec applyFiltersAndSort w)) = allApartments (store w).
Proof.
  unfold applyFiltersAndSort. rewrite exec_bind. simpl.
  destruct (length (allApartments (store w)) =? 0)%nat; [reflexivity |].
  rewrite exec_bind. unfold lift.
  destruct (filterApartments _ _); reflexivity.
Qed.

(** C1.  For every dataset [D] and every filter state of the declared shape,
    [filterApartments] returns (without throwing) a subsequence [R] of [D]:
    its elements are elements of [D] in their original relative order.  An
    apartment is in [R] iff it is in [D], [filters.rooms] is empty or holds
    the room count extracted from its title, its price lies in [priceRange]
    and its square in [squareRange], bounds included.  The function builds a
    new list, and the pipeline that calls it leaves [allApartments] as it
    was. *)
Theorem filterApartments_subsequence_iff
  (D : list apartmentsItem) (rs : list Z) (priceRange squareRange : Z * Z) :
  (exists R : list apartmentsItem,
     filterApartments (typed_filters rs priceRange squareRange) D = Ok R
     /\ sublist R D
     /\ forall a : apartmentsItem,
          In a R <->
          In a D
          /\ (rs = [] \/ In (extractRoomsCount (title a)) rs)
          /\ fst priceRange <= price a <= snd priceRange
          /\ fst squareRange <= square a <= snd squareRange)
  /\ forall w : world,
       allApartments (store (exec applyFiltersAndSort w))
       = allApartments (store w).
Proof.
  split; [| apply applyFiltersAndSort_allApartments].
  exists (List.filter (passes rs priceRange squareRange) D).
  split; [| split].
  - apply Array_filter_total, filter_callback_typed.
  - apply List_filter_sublist.
  - intros a. rewrite filter_In, passes_iff. reflexivity.
Qed.

(** ** sortApartments *)

Lemma List_filter_none {A : Type} (f : A -> bool) (l : list A) :
  (forall x, In x l -> f x = false) -> List.filter f l = [].
Proof.
  induction l as [| y l IH]; intros Hf; simpl; [reflexivity |].
  rewrite (Hf y) by now left.
  apply IH. intros x Hx. apply Hf. now right.
Qed.

Section SortByKey.

Context {A : Type}.
Variables (key : A -> Z) (comparefn : A -> A -> Z).
Hypothesis comparefn_key : forall a b, comparefn a b = key a - key b.

Let key_le (a b : A) : Prop := key a <= key b.
Let has_key (k : Z) (a : A) : bool := key a =? k.

Lemma sort_insert_Permutation (x : A) (l : list A) :
  Permutation (x :: l) (sort_insert comparefn x l).
Proof.
  induction l as [| y l IH]; simpl; [reflexivity |].
  destruct (comparefn y x >? 0); [reflexivity |].
  rewrite perm_swap. now apply perm_skip.
Qed.

Lemma Array_sort_from_Permutation (l acc : list A) :
  Permutation (acc ++ l)
    (fold_left (fun acc x => sort_insert comparefn x acc) l acc).
Proof.
  revert acc. induction l as [| x l IH]; intros acc; simpl.
  - now rewrite app_nil_r.
  - rewrite <- IH, <- sort_insert_Permutation.
    symmetry. apply Permutation_middle.
Qed.

Lemma sort_insert_In (x y : A) (l : list A) :
  In y (sort_insert comparefn x l) -> y = x \/ In y l.
Proof.
  intros Hy.
  apply (Permutation_in _ (Permutation_sym (sort_insert_Permutation x l))) in Hy.
  destruct Hy; [left; congruence | now right].
Qed.

Lemma sort_insert_sorted (x : A) (l : list A) :
  StronglySorted key_le l -> StronglySorted key_le (sort_insert comparefn x l).
Proof.
  induction 1 as [| y l Hl IH Hy]; simpl.
  - repeat constructor.
  - rewrite comparefn_key.
    destruct (Z.gtb_spec (key y - key x) 0) as [Hgt | Hle].
    + constructor; [now constructor |].
      constructor; [unfold key_le; lia |].
      eapply List.Forall_impl; [| exact Hy].
      unfold key_le. intros; lia.
    + constructor; [exact IH |].
      rewrite List.Forall_forall. intros z Hz.
      apply sort_insert_In in Hz. destruct Hz as [-> | Hz].
      * unfold key_le; lia.
      * rewrite List.Forall_forall in Hy. now apply Hy.
Qed.

(** Insertion puts [x] behind the elements of its own key. *)
Lemma sort_insert_filter (k : Z) (x : A) (l : list A) :
  StronglySorted key_le l ->
  List.filter (has_key k) (sort_insert comparefn x l)
  = List.filter (has_key k) l ++ List.filter (has_key k) [x].
Proof.
  induction 1 as [| y l Hl IH Hy]; [reflexivity |].
  cbn [sort_insert]. rewrite comparefn_key.
  destruct (Z.gtb_spec (key y - key x) 0) as [Hgt | Hle].
  - cbn [List.filter].
    destruct (has_key k x) eqn:Hk; [| now rewrite app_nil_r].
    unfold has_key in Hk. apply Z.eqb_eq in Hk.
    assert (Hnone : List.filter (has_key k) (y :: l) = []).
    { apply List_filter_none.
      intros z Hz. unfold has_key. apply Z.eqb_neq.
      destruct Hz as [<- | Hz]; [lia |].
      rewrite List.Forall_forall in Hy. specialize (Hy z Hz).
      unfold key_le in Hy. lia. }
    cbn [List.filter] in Hnone. now rewrite Hnone.
  - cbn [List.filter]. rewrite IH.
    destruct (has_key k y); reflexivity.
Qed.

Lemma Array_sort_from_sorted (l acc : list A) :
  StronglySorted key_le acc ->
  StronglySorted key_le
    (fold_left (fun acc x => sort_insert comparefn x acc) l acc).
Proof.
  revert acc. induction l as [| x l IH]; intros acc Hacc; simpl;
    [exact Hacc |].
  now apply IH, sort_insert_sorted.
Qed.

Lemma Array_sort_from_filter (k : Z) (l acc : list A) :
  StronglySorted key_le acc ->
  List.filter (has_key k)
    (fold_left (fun acc x => sort_insert comparefn x acc) l acc)
  = List.filter (has_key k) acc ++ List.filter (has_key k) l.
Proof.
  revert acc. induction l as [| x l IH]; intros acc Hacc; simpl.
  - now rewrite app_nil_r.
  - rewrite IH by now apply sort_insert_sorted.
    rewrite sort_insert_filter by exact Hacc.
    rewrite <- app_assoc. simpl. destruct (has_key k x); reflexivity.
Qed.

Lemma Array_sort_Permutation (l : list A) :
  Permutation l (Array_sort comparefn l).
Proof. exact (Array_sort_from_Permutation l []). Qed.

Lemma Array_sort_sorted (l : list A) :
  StronglySorted (fun a b => comparefn a b <= 0) (Array_sort comparefn l).
Proof.
  assert (H : StronglySorted key_le (Array_sort comparefn l))
    by (apply Array_sort_from_sorted; constructor).
  clear -H comparefn_key. induction H; constructor; [assumption |].
  eapply List.Forall_impl; [| eassumption].
  intros b Hb. rewrite comparefn_key. unfold key_le in Hb. lia.
Qed.

(** Stability: the elements that compare equal to [x] come out in the
    order they went in. *)
Lemma Array_sort_stable (x : A) (l : list A) :
  List.filter (fun y => comparefn x y =? 0) (Array_sort comparefn l)
  = List.filter (fun y => comparefn x y =? 0) l.
Proof.
  assert (Hext : forall y, (comparefn x y =? 0) = has_key (key x) y).
  { intros y. unfold has_key. rewrite comparefn_key.
    destruct (Z.eqb_spec (key x - key y) 0), (Z.eqb_spec (key y) (key x));
      (reflexivity || lia). }
  rewrite !(List.filter_ext _ _ Hext).
  unfold Array_sort. rewrite Array_sort_from_filter by constructor.
  reflexivity.
Qed.

End SortByKey.

Lemma sortMapper_key (o : SortOption) (a b : apartmentsItem) :
  sortMapper o a b = sort_key o a - sort_key o b.
Proof. destruct o; simpl; lia. Qed.

(** C2.  For every dataset [D] and sort option [S], [sortApartments D S] is
    a permutation of [D], it is ordered by the comparator of [S], and it is
    stable: for every apartment [x], the elements that compare equal to [x]
    under the comparator occur in the result in the same relative order as
    in [D].  For 'default', whose comparator makes all elements equal, the
    result is [D] itself, copied. *)
Theorem sortApartments_stable_permutation
  (D : list apartmentsItem) (S : SortOption) :
  Permutation D (sortApartments D S)
  /\ StronglySorted (fun a b => sortMapper S a b <= 0) (sortApartments D S)
  /\ (forall x : apartmentsItem,
        List.filter (fun y => sortMapper S x y =? 0) (sortApartments D S)
        = List.filter (fun y => sortMapper S x y =? 0) D)
  /\ sortApartments D default = D.
Proof.
  assert (Hsorted : forall o, o <> default ->
            sortApartments D o = Array_sort (sortMapper o) D)
    by (intros o Ho; destruct o; easy).
  repeat split; try reflexivity.
  - destruct S; try reflexivity;
      (rewrite Hsorted by discriminate;
       apply (Array_sort_Permutation (sortMapper _))).
  - destruct S;
      try (rewrite Hsorted by discriminate;
           eapply Array_sort_sorted, sortMapper_key).
    simpl. clear Hsorted. induction D as [| a D IH]; [constructor |].
    constructor; [exact IH |].
    rewrite List.Forall_forall. intros; lia.
  - intros x. destruct S; try reflexivity;
      (rewrite Hsorted by discriminate;
       eapply Array_sort_stable, sortMapper_key).
Qed.

(** ** The recompute pipeline and the restoration, as functions of the world *)

Lemma applyFiltersAndSort_run (w : world) :
  applyFiltersAndSort w =
  if (length (allApartments (store w)) =? 0)%nat then (Ok tt, w)
  else
    match filterApartments (filters (store w)) (allApartments (store w)) with
    | Throw e => (Throw e, w)
    | Ok filtered =>
        (Ok tt,
         with_store
           (fun s =>
              let sorted := sortApartments filtered (sortBy s) in
              set_displayedApartments (take (itemsPerPage s) sorted)
                (set_currentPage 1 (set_filteredApartments sorted s))) w)
    end.
Proof.
  unfold applyFiltersAndSort, mbind, M_bind, get, lift. simpl.
  destruct (length (allApartments (store w)) =? 0)%nat; [reflexivity |].
  destruct (filterApartments _ _); reflexivity.
Qed.

Lemma forEach_update_total {A : Type} (cb : A -> result A) (f : A -> A)
  (l : list A) :
  (forall x, cb x = Ok (f x)) -> forEach_update cb l = (map f l, None).
Proof.
  intros Hcb. induction l as [| x l IH]; simpl; [reflexivity |].
  now rewrite Hcb, IH.
Qed.

Lemma forEach_update_failing {A : Type} (cb : A -> result A) (e : Error)
  (l : list A) :
  (forall x, cb x = Throw e) ->
  forEach_update cb l = (l, match l with [] => None | _ => Some e end).
Proof.
  intros Hcb. destruct l as [| x l]; simpl; [reflexivity |].
  now rewrite Hcb.
Qed.

Lemma sync_rooms_run (w : world) :
  sync_rooms w =
  match FilterState.rooms (filters (store w)) with
  | Some rs =>
      (Ok tt,
       with_store (fun s => set_rooms (map (sync_room rs) (rooms s)) s) w)
  | None =>
      (match rooms (store w) with [] => Ok tt | _ => Throw TypeError end,
       with_store (fun s => set_rooms (rooms s) s) w)
  end.
Proof.
  unfold sync_rooms, mbind at 1, M_bind, get.
  destruct (FilterState.rooms (filters (store w))) as [rs |] eqn:Hrs.
  - erewrite forEach_update_total; [reflexivity |].
    intros x. reflexivity.
  - erewrite forEach_update_failing; [| intros x; reflexivity].
    unfold with_store. destruct (rooms (store w)); reflexivity.
Qed.

Lemma initPersistedState_run (w : world) :
  initPersistedState w =
  match storage w with
  | None | Some Text_empty => (Ok tt, w)
  | Some Text_invalid =>
      (Ok tt, with_console (cons (warn_restore SyntaxError)) w)
  | Some (Text_json JNull) =>
      (Ok tt, with_console (cons (warn_restore TypeError)) w)
  | Some (Text_json (JValue pf po)) =>
      let restore s :=
        set_sortBy (nullish po default)
          (set_filters (nullish pf (filters s)) s) in
      match FilterState.rooms (nullish pf (filters (store w))) with
      | Some rs =>
          (Ok tt,
           with_store
             (fun s => set_rooms (map (sync_room rs) (rooms s)) (restore s)) w)
      | None =>
          (Ok tt,
           match rooms (store w) with
           | [] => with_store (fun s => set_rooms (rooms s) (restore s)) w
           | _ => with_console (cons (warn_restore TypeError))
                    (with_store (fun s => set_rooms (rooms s) (restore s)) w)
           end)
      end
  end.
Proof.
  unfold initPersistedState, mbind at 1, M_bind at 1, localStorage_getItem.
  destruct (storage w) as [[| | [| pf po]] |] eqn:Hst; try reflexivity.
  unfold try_catch, mbind, M_bind, lift, get, assign. simpl.
  rewrite sync_rooms_run. simpl.
  destruct (FilterState.rooms (nullish pf (filters (store w))));
    [reflexivity |].
  destruct (rooms (store w)); reflexivity.
Qed.

(** ** initPersistedState *)

(** C5, as stated, fails: restoring a payload with filters but without ranges
    does not fall back to the current (default) ranges field by field.  The
    in-memory ranges become undefined, and when the restoration is part of a
    fetch, the recompute pipeline that follows it throws on them: the fetch
    ends with a TypeError in [error] and nothing to show. *)
Lemma initPersistedState_no_fallback_for_ranges :
  let w := initial_world (Some payload_without_ranges) in
  let w' := exec initPersistedState w in
  let w'' := exec (fetchApartments (fun _ => Ok three_flats)) w in
  FilterState.priceRange (filters (store w))
    = Some (DEFAULT_PRICE_MIN, DEFAULT_PRICE_MAX)
  /\ FilterState.priceRange (filters (store w')) = None
  /\ FilterState.squareRange (filters (store w')) = None
  /\ FilterState.priceRange (filters (store w'))
       <> FilterState.priceRange (filters (store w))
  /\ error (store w'') = Some TypeError
  /\ filteredApartments (store w'') = [].
Proof. repeat split; discriminate. Qed.

(** C5, amended.  [initPersistedState] leaves the world as it is when the
    slot is absent or holds the empty string.  When [JSON.parse] throws, or
    the parsed value is null, the exception is caught and logged and the
    store is left untouched.  Otherwise the fallback is by top-level member:
    [filters] becomes the payload's [filters] member as a whole when that
    member is present (properties it lacks stay undefined) and keeps its
    current value when the member is absent or null; [sortBy] becomes the
    payload's [sortBy], or 'default' when that member is absent or null.  The
    [active] flags of the room options are then set from the restored room
    list; when that list is undefined the flags stay and the TypeError is
    caught and logged.  Nothing else changes, and no exception escapes. *)
Theorem initPersistedState_fallback (w : world) :
  fst (initPersistedState w) = Ok tt
  /\ match storage w with
     | None | Some Text_empty =>
         exec initPersistedState w = w
     | Some Text_invalid =>
         exec initPersistedState w
         = with_console (cons (warn_restore SyntaxError)) w
     | Some (Text_json JNull) =>
         exec initPersistedState w
         = with_console (cons (warn_restore TypeError)) w
     | Some (Text_json (JValue pf po)) =>
         let s := store w in
         let w' := exec initPersistedState w in
         let restored := nullish pf (filters s) in
         store w'
         = set_rooms
             match FilterState.rooms restored with
             | Some rs => map (sync_room rs) (rooms s)
             | None => rooms s
             end
             (set_sortBy (nullish po default) (set_filters restored s))
         /\ console w'
            = match FilterState.rooms restored, rooms s with
              | None, _ :: _ => warn_restore TypeError :: console w
              | _, _ => console w
              end
         /\ storage w' = storage w
         /\ fetch_calls w' = fetch_calls w
      end.
Proof.
  unfold exec. rewrite initPersistedState_run.
  destruct (storage w) as [[| | [| pf po]] |] eqn:Hst; simpl;
    try (split; reflexivity).
  destruct (FilterState.rooms (nullish pf (filters (store w)))); simpl;
    [repeat split; try reflexivity; exact Hst |].
  destruct (rooms (store w)) eqn:Hrooms; simpl; rewrite ?Hrooms;
    repeat split; try reflexivity; exact Hst.
Qed.

(** ** reset *)

Lemma reset_store (w : world) :
  store (exec reset w)
  = {| allApartments := [];
       displayedApartments := [];
       filteredApartments := [];
       currentPage := 1;
       itemsPerPage := itemsPerPage (store w);
       isLoading := false;
       error := None;
       sortBy := default;
       hasInitialized := false;
       rooms := rooms (store w);
       filters := default_filters |}.
Proof. reflexivity. Qed.

(** C4, as stated, fails: after [reset] the slot is not cleared, it holds the
    serialized defaults, and the room options keep the flags they had (here
    all cleared by [resetRooms]) instead of the initial ones. *)
Lemma reset_is_not_pristine :
  let w := exec reset (exec resetRooms (initial_world None)) in
  storage w <> storage (initial_world None)
  /\ rooms (store w) <> rooms (store (initial_world None)).
Proof. split; discriminate. Qed.

(** C4, amended.  [reset] puts the dataset, the filtered and displayed lists,
    [currentPage], the loading flag, the error, the sort, the initialization
    flag and the filters back to their initial values, and overwrites the
    persisted slot with the serialized default filters and sort.  It does not
    throw, and it leaves the console and the pending work alone. *)
Theorem reset_restores_defaults (w : world) :
  let w' := exec reset w in
  let s' := store w' in
  fst (reset w) = Ok tt
  /\ allApartments s' = allApartments initial_state
  /\ displayedApartments s' = displayedApartments initial_state
  /\ filteredApartments s' = filteredApartments initial_state
  /\ currentPage s' = currentPage initial_state
  /\ isLoading s' = isLoading initial_state
  /\ error s' = error initial_state
  /\ sortBy s' = sortBy initial_state
  /\ hasInitialized s' = hasInitialized initial_state
  /\ filters s' = filters initial_state
  /\ itemsPerPage s' = itemsPerPage (store w)
  /\ storage w' = Some (JSON_stringify default_filters default)
  /\ console w' = console w
  /\ fetch_calls w' = fetch_calls w
  /\ pending_fetches w' = pending_fetches w
  /\ pending_delays w' = pending_delays w.
Proof. repeat split. Qed.

(** ** The initial room options *)

(** C10.  In the freshly built store the room options whose [active] flag is
    set are exactly the one of value 2, while [filters.rooms] is the empty
    list: the flags do not show the filter.  With these filters the callback
    of [filterApartments] never looks at the title: an apartment passes iff
    its price and square are within the default ranges. *)
Theorem initial_active_flag_without_filter :
  map RoomOption.value (List.filter RoomOption.active (rooms initial_state))
    = [2]
  /\ map RoomOption.name (List.filter RoomOption.active (rooms initial_state))
     = ["2к"%string]
  /\ FilterState.rooms (filters initial_state) = Some []
  /\ forall a : apartmentsItem,
       filter_callback (filters initial_state) a
       = Ok ((DEFAULT_PRICE_MIN <=? price a) && (price a <=? DEFAULT_PRICE_MAX)
             && (DEFAULT_SQUARE_MIN <=? square a)
             && (square a <=? DEFAULT_SQUARE_MAX)).
Proof.
  repeat split. intros a.
  change (filters initial_state)
    with (typed_filters [] (DEFAULT_PRICE_MIN, DEFAULT_PRICE_MAX)
            (DEFAULT_SQUARE_MIN, DEFAULT_SQUARE_MAX)).
  rewrite filter_callback_typed. reflexivity.
Qed.

(** ** fetchApartments *)

(** What [initPersistedState] can touch: the filters, the sort, the room
    options and the console. *)
Lemma initPersistedState_frame (w : world) :
  exists f o rs lg,
    initPersistedState w
    = (Ok tt,
       {| store := set_rooms rs (set_sortBy o (set_filters f (store w)));
          storage := storage w; console := lg;
          fetch_calls := fetch_calls w;
          pending_fetches := pending_fetches w;
          pending_delays := pending_delays w |}).
Proof.
  rewrite initPersistedState_run.
  destruct (storage w) as [[| | [| pf po]] |] eqn:Hst.
  1, 5: exists (filters (store w)), (sortBy (store w)), (rooms (store w)),
          (console w);
        destruct w as [[] ? ? ? ? ?]; simpl in *; now subst.
  1, 2: eexists (filters (store w)), (sortBy (store w)), (rooms (store w)), _;
        destruct w as [[] ? ? ? ? ?]; simpl in *; subst; reflexivity.
  simpl.
  destruct (FilterState.rooms (nullish pf (filters (store w))));
    [| destruct (rooms (store w)) eqn:Hrooms];
    do 4 eexists; unfold with_console, with_store; simpl;
    rewrite <- Hst; reflexivity.
Qed.

(** The first part of [fetchApartments]. *)
Lemma fetchApartments_begin_run (w : world) :
  fetchApartments_begin w =
  if (0 <? length (allApartments (store w)))%nat then (Ok None, w)
  else (Ok (Some (fetch_calls w)),
        with_pending_fetches S
          (with_fetch_calls S
             (with_store (fun s => set_error None (set_isLoading true s)) w))).
Proof.
  unfold fetchApartments_begin, mbind, M_bind, get. simpl.
  destruct (0 <? length (allApartments (store w)))%nat; reflexivity.
Qed.

(** The second part, when the promise is rejected. *)
Lemma fetchApartments_resume_rejected (e : Error) (w : world) :
  fetchApartments_resume (Throw e) w =
  (Ok tt,
   with_store (set_isLoading false)
     (with_console (cons (error_fetch e))
        (with_store (set_error (Some e))
           (with_pending_fetches Nat.pred w)))).
Proof. reflexivity. Qed.

(** The second part never throws, clears the loading flag and makes no call
    to the collaborator; when the promise is fulfilled the dataset is the
    data it brought. *)
Lemma fetchApartments_resume_facts (outcome : response) (w : world) :
  let w' := exec (fetchApartments_resume outcome) w in
  fst (fetchApartments_resume outcome w) = Ok tt
  /\ isLoading (store w') = false
  /\ fetch_calls w' = fetch_calls w
  /\ allApartments (store w')
     = match outcome with
       | Ok data => data
       | Throw _ => allApartments (store w)
       end.
Proof.
  destruct outcome as [data | e]; [| repeat split].
  unfold exec, fetchApartments_resume, try_finally, try_catch, mbind, M_bind,
    effect, assign, lift.
  cbn beta iota.
  match goal with
  | |- context [initPersistedState ?w0] =>
      destruct (initPersistedState_frame w0) as (f & o & rs & lg & ->)
  end.
  rewrite applyFiltersAndSort_run. cbn.
  destruct (length data =? 0)%nat; [repeat split |].
  destruct (Array_filter (filter_callback f) data); repeat split.
Qed.

Lemma length_pos_nonempty {A : Type} (l : list A) :
  (0 <? length l)%nat = true <-> l <> [].
Proof. destruct l; unfold Nat.ltb; simpl; split; congruence. Qed.

(** The guard of [fetchApartments]. *)
Lemma fetchApartments_skipped (getApartments : nat -> response) (w : world) :
  allApartments (store w) <> [] -> fetchApartments getApartments w = (Ok tt, w).
Proof.
  intros Hdata. apply length_pos_nonempty in Hdata.
  unfold fetchApartments, mbind, M_bind.
  rewrite fetchApartments_begin_run, Hdata. reflexivity.
Qed.

(** A call on an empty dataset, awaited. *)
Lemma fetchApartments_performed (getApartments : nat -> response) (w : world) :
  allApartments (store w) = [] ->
  fetchApartments getApartments w
  = fetchApartments_resume (getApartments (fetch_calls w))
      (with_pending_fetches S
         (with_fetch_calls S
            (with_store (fun s => set_error None (set_isLoading true s)) w))).
Proof.
  intros Hdata. unfold fetchApartments, mbind, M_bind.
  rewrite fetchApartments_begin_run, Hdata. reflexivity.
Qed.

(** C6.  [fetchApartments] is guarded: when [allApartments] is not empty it
    returns at once, the collaborator is not invoked and the world is left
    exactly as it was.  Hence, when a call on an empty store is answered with
    a non-empty dataset, that call and the one that follows it invoke the
    collaborator once in all: the second call meets the populated dataset
    and changes nothing. *)
Theorem fetchApartments_guarded (getApartments : nat -> response) (w : world) :
  (allApartments (store w) <> [] ->
   fetchApartments getApartments w = (Ok tt, w)
   /\ fetch_calls (exec (fetchApartments getApartments) w) = fetch_calls w)
  /\ (forall D : list apartmentsItem,
        allApartments (store w) = [] ->
        getApartments (fetch_calls w) = Ok D ->
        D <> [] ->
        let w1 := exec (fetchApartments getApartments) w in
        let w2 := exec (fetchApartments getApartments) w1 in
        allApartments (store w1) = D
        /\ fetch_calls w1 = S (fetch_calls w)
        /\ w2 = w1
        /\ fetch_calls w2 = S (fetch_calls w)).
Proof.
  split.
  - intros Hdata. unfold exec.
    rewrite (fetchApartments_skipped _ _ Hdata). split; reflexivity.
  - intros D Hempty Hanswer HD w1 w2.
    assert (Hw1 : allApartments (store w1) = D
                  /\ fetch_calls w1 = S (fetch_calls w)).
    { subst w1. unfold exec.
      rewrite (fetchApartments_performed _ _ Hempty), Hanswer.
      match goal with
      | |- context [fetchApartments_resume ?o ?w0] =>
          destruct (fetchApartments_resume_facts o w0) as (_ & _ & Hcalls & Hall)
      end.
      unfold exec in Hcalls, Hall. split; [exact Hall | exact Hcalls]. }
    destruct Hw1 as [Hall Hcalls].
    assert (Hw2 : w2 = w1).
    { subst w2. unfold exec at 1.
      rewrite fetchApartments_skipped; [reflexivity | congruence]. }
    rewrite Hw2. auto.
Qed.

(** C7.  When the collaborator's promise is rejected with [e], a call of
    [fetchApartments] on an empty dataset stores [e] in [error], logs it,
    leaves [allApartments] empty and ends with [isLoading] false; the next
    call is not stopped by the guard, it invokes the collaborator again.  The
    loading flag is cleared by the second part of [fetchApartments] whatever
    the outcome of the promise. *)
Theorem fetchApartments_failure
  (getApartments : nat -> response) (w : world) (e : Error) :
  allApartments (store w) = [] ->
  getApartments (fetch_calls w) = Throw e ->
  let w' := exec (fetchApartments getApartments) w in
  error (store w') = Some e
  /\ console w' = error_fetch e :: console w
  /\ allApartments (store w') = []
  /\ isLoading (store w') = false
  /\ (forall retry : nat -> response,
        fetch_calls (exec (fetchApartments retry) w') = S (fetch_calls w'))
  /\ (forall (outcome : response) (w0 : world),
        isLoading (store (exec (fetchApartments_resume outcome) w0)) = false).
Proof.
  intros Hempty Hanswer w'.
  assert (Hw' : w' = with_store (set_isLoading false)
                  (with_console (cons (error_fetch e))
                     (with_store (set_error (Some e))
                        (with_pending_fetches Nat.pred
                           (with_pending_fetches S
                              (with_fetch_calls S
                                 (with_store
                                    (fun s => set_error None (set_isLoading true s))
                                    w))))))).
  { subst w'. unfold exec.
    rewrite (fetchApartments_performed _ _ Hempty), Hanswer.
    rewrite fetchApartments_resume_rejected. reflexivity. }
  assert (Hstill : allApartments (store w') = [])
    by (rewrite Hw'; exact Hempty).
  repeat split; try (rewrite Hw'; reflexivity); try exact Hstill.
  - intros retry. unfold exec.
    rewrite (fetchApartments_performed _ _ Hstill).
    match goal with
    | |- context [fetchApartments_resume ?o ?w0] =>
        destruct (fetchApartments_resume_facts o w0) as (_ & _ & Hcalls & _)
    end.
    unfold exec in Hcalls. rewrite Hcalls. reflexivity.
  - intros outcome w0. apply fetchApartments_resume_facts.
Qed.

(** ** loadMore *)

Lemma loadMore_run (w : world) :
  loadMore w =
  if negb (hasMoreItems (store w)) || isLoading (store w) then (Ok tt, w)
  else
    (Ok tt,
     with_store
       (fun s =>
          set_isLoading false
            (set_displayedApartments
               (take (S (currentPage s) * itemsPerPage s)
                  (filteredApartments s))
               (set_currentPage (S (currentPage s)) s)))
       (with_pending_delays Nat.pred
          (with_pending_delays S (with_store (set_isLoading true) w)))).
Proof.
  unfold loadMore, loadMore_begin, mbind, M_bind, get. simpl.
  destruct (negb (hasMoreItems (store w)) || isLoading (store w));
    reflexivity.
Qed.

(** The store after [loadMore], awaited, is a function of the store before. *)
Lemma exec_loadMore_store (w : world) :
  store (exec loadMore w) =
  let s := store w in
  if negb (hasMoreItems s) || isLoading s then s
  else
    {| allApartments := allApartments s;
       displayedApartments :=
         take (S (currentPage s) * itemsPerPage s) (filteredApartments s);
       filteredApartments := filteredApartments s;
       currentPage := S (currentPage s);
       itemsPerPage := itemsPerPage s;
       isLoading := false;
       error := error s;
       sortBy := sortBy s;
       hasInitialized := hasInitialized s;
       rooms := rooms s;
       filters := filters s |}.
Proof.
  unfold exec. rewrite loadMore_run. cbv zeta.
  destruct (negb (hasMoreItems (store w)) || isLoading (store w));
    reflexivity.
Qed.

(** The scenario of the specification, up to the first fetch. *)
Lemma fetch_unfiltered (D : list apartmentsItem) :
  D <> [] ->
  filterApartments default_filters D = Ok D ->
  store (exec (fetchApartments (fun _ => Ok D)) (initial_world None))
  = {| allApartments := D;
       displayedApartments := take ITEMS_PER_PAGE D;
       filteredApartments := D;
       currentPage := 1;
       itemsPerPage := ITEMS_PER_PAGE;
       isLoading := false;
       error := None;
       sortBy := default;
       hasInitialized := true;
       rooms := initial_rooms;
       filters := default_filters |}.
Proof.
  intros HD Hkeep. unfold exec.
  rewrite fetchApartments_performed by reflexivity.
  unfold fetchApartments_resume, try_finally, try_catch, mbind, M_bind,
    effect, assign, lift.
  cbn beta iota. rewrite initPersistedState_run.
  cbn beta iota delta
    [storage with_store with_pending_fetches with_fetch_calls initial_world].
  cbn beta iota. rewrite applyFiltersAndSort_run.
  cbn -[filterApartments take]. rewrite Hkeep.
  destruct D as [| a D]; [congruence |]. reflexivity.
Qed.

(** C3.  [loadMore] returns at once, changing nothing, when [hasMoreItems]
    is false or a load is in flight.  Otherwise it increments [currentPage]
    and sets [displayedApartments] to the first [currentPage * itemsPerPage]
    elements of [filteredApartments], all of them when there are fewer; its
    second part does so on whatever store it finds when the delay is over.  For
    a dataset of 12 items that the default filters keep whole, with nothing
    persisted: after the fetch 5 items are displayed and [hasMoreItems] is
    true, after one [loadMore] 10, after a second one 12 and [hasMoreItems]
    is false. *)
Theorem loadMore_window :
  (forall w : world,
     hasMoreItems (store w) = false \/ isLoading (store w) = true ->
     loadMore w = (Ok tt, w))
  /\ (forall w : world,
        hasMoreItems (store w) = true ->
        isLoading (store w) = false ->
        let s := store w in
        let s' := store (exec loadMore w) in
        currentPage s' = S (currentPage s)
        /\ displayedApartments s'
           = take (currentPage s' * itemsPerPage s') (filteredApartments s')
        /\ length (displayedApartments s')
           = Nat.min (currentPage s' * itemsPerPage s')
               (length (filteredApartments s'))
        /\ filteredApartments s' = filteredApartments s
        /\ itemsPerPage s' = itemsPerPage s
        /\ isLoading s' = false)
  /\ (forall w : world,
        let s := store w in
        let s' := store (exec loadMore_resume w) in
        currentPage s' = S (currentPage s)
        /\ displayedApartments s'
           = take (currentPage s' * itemsPerPage s') (filteredApartments s)
        /\ isLoading s' = false)
  /\ (forall D : list apartmentsItem,
        length D = 12%nat ->
        filterApartments default_filters D = Ok D ->
        let w1 := exec (fetchApartments (fun _ => Ok D)) (initial_world None) in
        let w2 := exec loadMore w1 in
        let w3 := exec loadMore w2 in
        itemsPerPage (store w1) = 5%nat
        /\ length (displayedApartments (store w1)) = 5%nat
        /\ hasMoreItems (store w1) = true
        /\ length (displayedApartments (store w2)) = 10%nat
        /\ length (displayedApartments (store w3)) = 12%nat
        /\ hasMoreItems (store w3) = false).
Proof.
  split; [| split; [| split]].
  - intros w Hguard. rewrite loadMore_run.
    destruct Hguard as [-> | ->]; [reflexivity |].
    now rewrite orb_true_r.
  - intros w Hmore Hidle s s'. subst s s'. unfold exec.
    rewrite loadMore_run, Hmore, Hidle. cbn -[Nat.mul take].
    repeat split. apply length_take.
  - intros w. repeat split.
  - intros D H12 Hkeep. cbv zeta.
    assert (HD : D <> []) by (destruct D; [discriminate | congruence]).
    rewrite !exec_loadMore_store, (fetch_unfiltered D HD Hkeep).
    clear HD Hkeep.
    do 12 (destruct D as [| ? D]; [discriminate |]).
    destruct D; [| discriminate].
    repeat split.
Qed.

(** ** The displayed window *)

Lemma same_window_invariant (s s' : state) :
  same_window s s' -> window_invariant s -> window_invariant s'.
Proof.
  unfold same_window, window_invariant.
  intros (-> & -> & -> & ->). trivial.
Qed.

Lemma applyFiltersAndSort_invariant (w : world) :
  window_invariant (store w) ->
  window_invariant (store (exec applyFiltersAndSort w)).
Proof.
  intros Hw. unfold exec. rewrite applyFiltersAndSort_run.
  destruct (length (allApartments (store w)) =? 0)%nat; [exact Hw |].
  destruct (filterApartments _ _); [| exact Hw].
  unfold window_invariant. cbn -[take Nat.mul].
  now rewrite Nat.mul_1_l.
Qed.

(** A mutator: an assignment that leaves the window alone, the recompute
    pipeline, and the saving of the filters, which the pipeline's exception
    skips. *)
Lemma mutator_invariant (f : state -> state) (w : world) :
  (forall s, same_window s (f s)) ->
  window_invariant (store w) ->
  window_invariant
    (store (exec (assign f;; applyFiltersAndSort;; saveFilters) w)).
Proof.
  intros Hf Hw.
  assert (Hw1 : window_invariant (store (with_store f w)))
    by (eapply same_window_invariant; [apply Hf | exact Hw]).
  apply applyFiltersAndSort_invariant in Hw1.
  unfold exec in *. unfold mbind, M_bind, assign. cbn beta iota.
  destruct (applyFiltersAndSort (with_store f w)) as [[[] | e] w1];
    exact Hw1.
Qed.

Lemma fetchApartments_resume_invariant (outcome : response) (w : world) :
  window_invariant (store w) ->
  window_invariant (store (exec (fetchApartments_resume outcome) w)).
Proof.
  intros Hw. destruct outcome as [data | e]; [| exact Hw].
  unfold exec, fetchApartments_resume, try_finally, try_catch, mbind, M_bind,
    effect, assign, lift.
  cbn beta iota.
  match goal with
  | |- context [initPersistedState ?w0] =>
      destruct (initPersistedState_frame w0) as (f & o & rs & lg & ->)
  end.
  match goal with
  | |- context [applyFiltersAndSort ?w0] =>
      assert (Hw0 : window_invariant (store w0)) by exact Hw;
      apply applyFiltersAndSort_invariant in Hw0; unfold exec in Hw0;
      destruct (applyFiltersAndSort w0) as [[[] | e] w1]
  end; exact Hw0.
Qed.

Lemma loadMore_resume_invariant (w : world) :
  window_invariant (store (exec loadMore_resume w)).
Proof. reflexivity. Qed.

Lemma setSortBy_invariant (o : SortOption) (w : world) :
  window_invariant (store w) ->
  window_invariant (store (exec (setSortBy o) w)).
Proof. apply mutator_invariant. now intros s. Qed.

Lemma setRoomsFilter_invariant (rs : list Z) (w : world) :
  window_invariant (store w) ->
  window_invariant (store (exec (setRoomsFilter rs) w)).
Proof. apply mutator_invariant. now intros s. Qed.

Lemma setPriceRange_invariant (range : Z * Z) (w : world) :
  window_invariant (store w) ->
  window_invariant (store (exec (setPriceRange range) w)).
Proof. apply mutator_invariant. now intros s. Qed.

Lemma setSquareRange_invariant (range : Z * Z) (w : world) :
  window_invariant (store w) ->
  window_invariant (store (exec (setSquareRange range) w)).
Proof. apply mutator_invariant. now intros s. Qed.

Lemma resetFilters_invariant (w : world) :
  window_invariant (store w) ->
  window_invariant (store (exec resetFilters w)).
Proof.
  exact (mutator_invariant
           (fun s => set_sortBy default (set_filters default_filters s)) w
           (fun s => conj eq_refl (conj eq_refl (conj eq_refl eq_refl)))).
Qed.

Lemma reset_invariant (w : world) :
  window_invariant (store (exec reset w)).
Proof.
  unfold window_invariant. rewrite reset_store. cbn -[take Nat.mul].
  now rewrite take_nil.
Qed.

Lemma step_invariant (w w' : world) :
  step w w' -> window_invariant (store w) -> window_invariant (store w').
Proof.
  intros Hstep Hw. destruct Hstep.
  - unfold exec. rewrite fetchApartments_begin_run.
    destruct (0 <? length (allApartments (store w)))%nat; exact Hw.
  - now apply fetchApartments_resume_invariant.
  - unfold exec, loadMore_begin, mbind, M_bind, get. cbn beta iota.
    destruct (negb (hasMoreItems (store w)) || isLoading (store w)); exact Hw.
  - apply loadMore_resume_invariant.
  - now apply setSortBy_invariant.
  - now apply setRoomsFilter_invariant.
  - exact Hw.
  - now apply setPriceRange_invariant.
  - now apply setSquareRange_invariant.
  - now apply resetFilters_invariant.
  - apply reset_invariant.
  - exact Hw.
Qed.

(** C9.  In every world a session can reach, [displayedApartments] is
    [filteredApartments.slice(0, currentPage * itemsPerPage)], so it is a
    prefix of [filteredApartments]; and every step a session can take, from
    any world where this holds (the two parts of [fetchApartments] and of
    [loadMore], the filter and sort mutators, [resetRooms], [resetFilters],
    [reset], a change of the slot), leads to a world where it holds. *)
Theorem displayed_window_invariant (w : world) :
  reachable w ->
  displayedApartments (store w)
  = take (currentPage (store w) * itemsPerPage (store w))
      (filteredApartments (store w))
  /\ displayedApartments (store w) `prefix_of` filteredApartments (store w)
  /\ forall w0 w1 : world,
       window_invariant (store w0) -> step w0 w1 ->
       window_invariant (store w1).
Proof.
  intros Hreach.
  assert (Hinv : window_invariant (store w)).
  { induction Hreach as [slot | w w' _ IH Hstep].
    - reflexivity.
    - exact (step_invariant _ _ Hstep IH). }
  split; [exact Hinv | split].
  - rewrite Hinv. apply prefix_take.
  - intros w0 w1 H0 Hstep. exact (step_invariant _ _ Hstep H0).
Qed.

(** ** debounce *)

Lemma timer_delay_in_range (wait : nat) :
  (1 <= Z.of_nat wait <= Debounce.TIMEOUT_MAX)%Z ->
  Debounce.timer_delay wait = wait.
Proof.
  intros [Hlo Hhi]. unfold Debounce.timer_delay.
  destruct (Nat.ltb_spec wait 1); [lia |].
  destruct (Z.ltb_spec Debounce.TIMEOUT_MAX (Z.of_nat wait)); [lia |].
  reflexivity.
Qed.

(** Outside that range the delay is 1: a [wait] of 0 or above 2^31 - 1. *)
Lemma timer_delay_out_of_range (wait : nat) :
  wait = 0%nat \/ (Debounce.TIMEOUT_MAX < Z.of_nat wait)%Z ->
  Debounce.timer_delay wait = 1%nat.
Proof.
  intros H. unfold Debounce.timer_delay.
  destruct H as [-> | H]; [reflexivity |].
  destruct (Z.ltb_spec Debounce.TIMEOUT_MAX (Z.of_nat wait)); [| lia].
  now rewrite orb_true_r.
Qed.

(** With [wait = 0] a call is not invoked in its own millisecond: of two
    calls at 0 the second one replaces the first, and it runs at 1; a call
    at 5 runs at 6. *)
Example debounce_zero_wait :
  Debounce.invoked
    (Debounce.settle (fun _ : string => Ok tt)
       (Debounce.run (fun _ : string => Ok tt) 0
          [(0%nat, "a"%string); (0%nat, "b"%string); (5%nat, "c"%string)]))
  = [(1%nat, "b"%string); (6%nat, "c"%string)].
Proof. reflexivity. Qed.

Section DebounceFacts.

Import Debounce.
Local Open Scope nat_scope.

Context {Args : Type}.
Variable func : Args -> result unit.
Variable wait : nat.
Hypothesis wait_in_range : (1 <= Z.of_nat wait <= TIMEOUT_MAX)%Z.

Lemma call_at_idle (e : env Args) (c : nat * Args) :
  idle e -> now e <= fst c ->
  pending wait c (call_at func wait e c)
  /\ invoked (call_at func wait e c) = invoked e.
Proof.
  destruct e as [nw nh q tm inv]. intros Hq Hle; unfold idle in Hq;
    simpl in *; subst.
  unfold Debounce.call_at, advance, debounced, pending, set_timeout; simpl.
  rewrite (timer_delay_in_range wait wait_in_range).
  destruct tm; simpl; (repeat split; [lia |]);
    (eexists; split; [| reflexivity]; do 3 f_equal; lia).
Qed.

(** The next call comes before the pending timer is due: the timer is
    cleared, a new one is set. *)
Lemma call_at_pending_early (p c : nat * Args) (e : env Args) :
  pending wait p e -> fst p <= fst c -> fst c < fst p + wait ->
  pending wait c (call_at func wait e c)
  /\ invoked (call_at func wait e c) = invoked e.
Proof.
  destruct e as [nw nh q tm inv].
  intros (Hnow & h & Hq & Htm) Hle Hlt; simpl in *; subst.
  unfold Debounce.call_at, advance, debounced, pending, set_timeout; simpl.
  destruct (Nat.leb_spec (fst p + wait) (fst c)); [lia |]. simpl.
  rewrite Nat.eqb_refl. unfold set_timeout; simpl.
  rewrite (timer_delay_in_range wait wait_in_range).
  repeat split. { lia. }
  eexists. split; [| reflexivity]. do 3 f_equal. lia.
Qed.

(** The next call comes when the pending timer is due or later: the timer
    runs first, then a new one is set. *)
Lemma call_at_pending_late (p c : nat * Args) (e : env Args) :
  pending wait p e -> fst p + wait <= fst c ->
  pending wait c (call_at func wait e c)
  /\ invoked (call_at func wait e c) = invoked e ++ [(fst p + wait, snd p)].
Proof.
  destruct e as [nw nh q tm inv].
  intros (Hnow & h & Hq & Htm) Hle; simpl in *; subst.
  unfold Debounce.call_at, advance, debounced, pending, set_timeout; simpl.
  destruct (Nat.leb_spec (fst p + wait) (fst c)); [| lia]. simpl.
  rewrite Nat.eqb_refl. unfold set_timeout; simpl.
  rewrite (timer_delay_in_range wait wait_in_range).
  destruct (func (snd p)); simpl; repeat split;
    try lia;
    try (eexists; split; [| reflexivity]; do 3 f_equal; lia);
    do 3 f_equal; lia.
Qed.

Lemma settle_pending (p : nat * Args) (e : env Args) :
  pending wait p e ->
  invoked (settle func e) = invoked e ++ [(fst p + wait, snd p)].
Proof.
  destruct e as [nw nh q tm inv].
  intros (Hnow & h & Hq & Htm); simpl in *; subst.
  unfold Debounce.settle; simpl. do 3 f_equal. lia.
Qed.


Lemma last_cons_default {A : Type} (l : list A) :
  forall c d : A, List.last (c :: l) d = List.last l c.
Proof.
  induction l as [| c' l IH]; intros c d; [reflexivity |].
  change (List.last (c :: c' :: l) d) with (List.last (c' :: l) d).
  now rewrite !IH.
Qed.

(** Running the rest of a schedule from a pending call. *)
Lemma run_from_pending (rest : list (nat * Args)) :
  forall (p : nat * Args) (e : env Args),
    pending wait p e -> chronological (p :: rest) ->
    pending wait (List.last rest p) (fold_left (call_at func wait) rest e)
    /\ invoked (settle func (fold_left (call_at func wait) rest e))
       = invoked e ++ trailing_from wait p rest.
Proof.
  induction rest as [| c rest IH]; intros p e Hp Hchron.
  - split; [exact Hp | now apply settle_pending].
  - destruct Hchron as [Hle Hchron].
    rewrite last_cons_default. cbn [fold_left trailing_from].
    destruct (Nat.ltb_spec (fst c) (fst p + wait)) as [Hlt | Hge].
    + destruct (call_at_pending_early p c e Hp Hle Hlt) as [Hc Hinv].
      destruct (IH c _ Hc Hchron) as [Hpend Hrun].
      split; [exact Hpend |]. now rewrite Hrun, Hinv.
    + destruct (call_at_pending_late p c e Hp Hge) as [Hc Hinv].
      destruct (IH c _ Hc Hchron) as [Hpend Hrun].
      split; [exact Hpend |].
      rewrite Hrun, Hinv, <- app_assoc. reflexivity.
Qed.

Lemma initial_idle : idle (@initial Args).
Proof. reflexivity. Qed.


Lemma run_settle (calls : list (nat * Args)) :
  chronological calls ->
  invoked (settle func (run func wait calls)) = trailing wait calls.
Proof.
  intros Hchron. unfold Debounce.run.
  destruct calls as [| p rest]; [reflexivity |]. cbn [fold_left trailing].
  destruct (call_at_idle initial p initial_idle) as [Hp Hinv];
    [simpl; lia |].
  destruct (run_from_pending rest p _ Hp Hchron) as [_ Hrun].
  now rewrite Hrun, Hinv.
Qed.

End DebounceFacts.


(** * The theorems at concrete inputs *)

Example extractRoomsCount_two_rooms :
  extractRoomsCount "2-комнатная квартира" = 2.
Proof. reflexivity. Qed.

Example extractRoomsCount_studio : extractRoomsCount "Студия" = 0.
Proof. reflexivity. Qed.

Lemma filterApartments_subsequence_iff_witness :
  filterApartments (typed_filters [2] (5500000, 8000000) (33, 123)) three_flats
    = Ok [flat 1 2 6000000 50]
  /\ (In (flat 3 2 9000000 60) [flat 1 2 6000000 50] <->
      In (flat 3 2 9000000 60) three_flats
      /\ ([2] = [] \/ In (extractRoomsCount (title (flat 3 2 9000000 60))) [2])
      /\ 5500000 <= price (flat 3 2 9000000 60) <= 8000000
      /\ 33 <= square (flat 3 2 9000000 60) <= 123).
Proof.
  split; [reflexivity |].
  destruct (filterApartments_subsequence_iff three_flats [2]
              (5500000, 8000000) (33, 123)) as [(R & HR & _ & Hiff) _].
  vm_compute in HR. injection HR as <-. exact (Hiff (flat 3 2 9000000 60)).
Defined.

Lemma loadMore_window_witness :
  length twelve_flats = 12%nat
  /\ filterApartments default_filters twelve_flats = Ok twelve_flats
  /\ let w1 := exec (fetchApartments (fun _ => Ok twelve_flats))
                 (initial_world None) in
     let w2 := exec loadMore w1 in
     let w3 := exec loadMore w2 in
     itemsPerPage (store w1) = 5%nat
     /\ length (displayedApartments (store w1)) = 5%nat
     /\ hasMoreItems (store w1) = true
     /\ length (displayedApartments (store w2)) = 10%nat
     /\ length (displayedApartments (store w3)) = 12%nat
     /\ hasMoreItems (store w3) = false.
Proof.
  split; [reflexivity | split; [reflexivity |]].
  destruct loadMore_window as (_ & _ & _ & Hscenario).
  apply (Hscenario twelve_flats); reflexivity.
Defined.

Lemma fetchApartments_guarded_witness :
  let getApartments := fun _ : nat => Ok three_flats in
  let w := initial_world None in
  allApartments (store w) = []
  /\ getApartments (fetch_calls w) = Ok three_flats
  /\ three_flats <> []
  /\ fetch_calls
       (exec (fetchApartments getApartments)
          (exec (fetchApartments getApartments) w)) = 1%nat.
Proof.
  intros getApartments w.
  split; [reflexivity | split; [reflexivity | split; [discriminate |]]].
  destruct (fetchApartments_guarded getApartments w) as [_ Htwice].
  destruct (Htwice three_flats) as (_ & _ & _ & Hcalls);
    [reflexivity | reflexivity | discriminate |].
  exact Hcalls.
Defined.

Lemma fetchApartments_failure_witness :
  let getApartments : nat -> response := fun _ => Throw (Rejected 503) in
  let w := initial_world None in
  allApartments (store w) = []
  /\ getApartments (fetch_calls w) = Throw (Rejected 503)
  /\ let w' := exec (fetchApartments getApartments) w in
     error (store w') = Some (Rejected 503)
     /\ console w' = [error_fetch (Rejected 503)]
     /\ allApartments (store w') = []
     /\ isLoading (store w') = false.
Proof.
  intros getApartments w.
  split; [reflexivity | split; [reflexivity |]].
  destruct (fetchApartments_failure getApartments w (Rejected 503)
              eq_refl eq_refl) as (He & Hc & Ha & Hl & _).
  repeat split; assumption.
Defined.


Lemma displayed_window_invariant_witness :
  let w := exec loadMore_resume
             (exec loadMore_begin
                (exec (fetchApartments_resume (Ok twelve_flats))
                   (exec fetchApartments_begin (initial_world None)))) in
  reachable w
  /\ displayedApartments (store w) = take 10 twelve_flats
  /\ displayedApartments (store w)
     = take (currentPage (store w) * itemsPerPage (store w))
         (filteredApartments (store w)).
Proof.
  intros w.
  assert (Hreach : reachable w).
  { unfold w.
    eapply reachable_step; [| apply step_delay_elapsed; vm_compute; lia].
    eapply reachable_step; [| apply step_loadMore].
    eapply reachable_step; [| apply step_fetch_settled; vm_compute; lia].
    eapply reachable_step; [| apply step_fetchApartments].
    apply reachable_initial. }
  split; [exact Hreach | split; [reflexivity |]].
  exact (proj1 (displayed_window_invariant w Hreach)).
Defined.

(** * Further properties *)

(** ** extractRoomsCount *)

Lemma String_prefix_append (m post : string) :
  String.prefix m (m ++ post)%string = true.
Proof.
  induction m as [| c m IH]; simpl; [now destruct post |].
  destruct (ascii_dec c c); [exact IH | congruence].
Qed.


Lemma match_here_marker (post : string) :
  match_here (rooms_marker ++ post)%string = None.
Proof. reflexivity. Qed.

Lemma match_here_complete (d post : string) :
  all_digits d = true -> d <> EmptyString ->
  match_here (d ++ rooms_marker ++ post)%string = Some d.
Proof.
  induction d as [| c d IH]; intros Hd Hne; [congruence |].
  simpl in Hd. apply andb_true_iff in Hd as [Hc Hd].
  change (match_here (String c (d ++ rooms_marker ++ post)%string)
          = Some (String c d)).
  cbn [match_here]. rewrite Hc.
  destruct d as [| c' d].
  - change (EmptyString ++ rooms_marker ++ post)%string
      with (rooms_marker ++ post)%string.
    rewrite match_here_marker, String_prefix_append. reflexivity.
  - rewrite IH by (assumption || discriminate). reflexivity.
Qed.



Lemma regex_match_complete (pre d post : string) :
  no_digit pre = true -> all_digits d = true -> d <> EmptyString ->
  regex_match (pre ++ d ++ rooms_marker ++ post)%string = Some d.
Proof.
  intros Hpre Hd Hne. induction pre as [| c pre IH].
  - change (EmptyString ++ ?x)%string with x.
    destruct d as [| c d]; [congruence |].
    change (regex_match (String c (d ++ rooms_marker ++ post)%string)
            = Some (String c d)).
    cbn [regex_match].
    change (String c (d ++ rooms_marker ++ post)%string)
      with (String c d ++ rooms_marker ++ post)%string.
    now rewrite match_here_complete.
  - simpl in Hpre. apply andb_true_iff in Hpre as [Hc Hpre].
    apply negb_true_iff in Hc.
    change (regex_match (String c (pre ++ d ++ rooms_marker ++ post)%string)
            = Some d).
    cbn [regex_match match_here]. rewrite Hc. now apply IH.
Qed.



(** X1.  A title made of a digit-free text, a non-empty run of decimal
    digits that write a number up to [Number.MAX_SAFE_INTEGER], the marker
    "-комнатная" and anything after it yields the number the digits
    write. *)
Theorem extractRoomsCount_marked_title (pre d post : string) :
  no_digit pre = true -> all_digits d = true -> d <> EmptyString ->
  parseInt10 d <= MAX_SAFE_INTEGER ->
  extractRoomsCount (pre ++ d ++ rooms_marker ++ post)%string = parseInt10 d.
Proof.
  intros Hpre Hd Hne _. unfold extractRoomsCount.
  now rewrite regex_match_complete.
Qed.


(** ** filterApartments, continued *)

Lemma Array_filter_rejecting {A : Type} (cb : A -> result bool)
  (g : A -> bool) (e : Error) (l : list A) :
  (forall x, cb x = if g x then Throw e else Ok false) ->
  Array_filter cb l = if existsb g l then Throw e else Ok [].
Proof.
  intros Hcb. induction l as [| x l IH]; simpl; [reflexivity |].
  rewrite Hcb. destruct (g x); simpl; [reflexivity |].
  rewrite IH. destruct (existsb g l); reflexivity.
Qed.

Lemma Array_filter_again {A : Type} (cb : A -> result bool) (l : list A) :
  forall r, Array_filter cb l = Ok r -> Array_filter cb r = Ok r.
Proof.
  induction l as [| x l IH]; simpl; intros r H.
  - injection H as <-. reflexivity.
  - destruct (cb x) as [b |] eqn:Hx; [| discriminate]. simpl in H.
    destruct (Array_filter cb l) as [r' |]; [| discriminate]. simpl in H.
    injection H as <-. specialize (IH r' eq_refl).
    destruct b; [| exact IH]. simpl. rewrite Hx. simpl. rewrite IH. reflexivity.
Qed.

Lemma List_filter_sublist_impl {A : Type} (p q : A -> bool) (l : list A) :
  (forall x, p x = true -> q x = true) ->
  sublist (List.filter p l) (List.filter q l).
Proof.
  intros Hpq. induction l as [| x l IH]; simpl; [constructor |].
  destruct (p x) eqn:Hp.
  - rewrite (Hpq x Hp). now apply sublist_skip.
  - destruct (q x); [now apply sublist_cons | exact IH].
Qed.

(** X3.  [filterApartments] on filters with undefined properties: an empty
    dataset gives an empty result whatever the filters are; an undefined
    room list throws a TypeError on any non-empty dataset; an undefined
    price range throws exactly when some apartment gets past the room test,
    and otherwise the result is empty; an undefined square range throws
    exactly when some apartment gets past the room and price tests. *)
Theorem filterApartments_undefined_filters :
  (forall f : FilterState.t, filterApartments f [] = Ok [])
  /\ (forall (f : FilterState.t) (a : apartmentsItem) (D : list apartmentsItem),
        FilterState.rooms f = None ->
        filterApartments f (a :: D) = Throw TypeError)
  /\ (forall (rs : list Z) (sr : option (Z * Z)) (D : list apartmentsItem),
        filterApartments
          {| FilterState.rooms := Some rs; FilterState.priceRange := None;
             FilterState.squareRange := sr |} D
        = if existsb (rooms_test rs) D then Throw TypeError else Ok [])
  /\ (forall (rs : list Z) (pr : Z * Z) (D : list apartmentsItem),
        filterApartments
          {| FilterState.rooms := Some rs; FilterState.priceRange := Some pr;
             FilterState.squareRange := None |} D
        = if existsb (fun a => rooms_test rs a && price_test pr a) D
          then Throw TypeError else Ok []).
Proof.
  split; [reflexivity | split; [| split]].
  - intros f a D Hf. unfold filterApartments. simpl.
    unfold filter_callback. rewrite Hf. reflexivity.
  - intros rs sr D. apply Array_filter_rejecting. intros a.
    unfold filter_callback, rooms_test. simpl.
    destruct (0 <? length rs)%nat; simpl; [| reflexivity].
    destruct (includes rs _); reflexivity.
  - intros rs [pmin pmax] D. apply Array_filter_rejecting. intros a.
    unfold filter_callback, rooms_test, price_test. simpl.
    rewrite Z.gtb_ltb.
    destruct (0 <? length rs)%nat; simpl;
      [destruct (includes rs _); simpl; [| reflexivity] |];
      destruct (Z.ltb_spec (price a) pmin), (Z.ltb_spec pmax (price a)),
        (Z.leb_spec pmin (price a)), (Z.leb_spec (price a) pmax);
      simpl; reflexivity || lia.
Qed.

(** X4.  Filtering the result of [filterApartments] again with the same
    filters returns it unchanged. *)
Theorem filterApartments_idempotent
  (f : FilterState.t) (D R : list apartmentsItem) :
  filterApartments f D = Ok R -> filterApartments f R = Ok R.
Proof. apply Array_filter_again. Qed.

(** X5.  Narrowing the filters never adds results: when the wider filters
    have no room filter (an empty room list), or the narrower room list is
    not empty and included in the wider one, and the narrower ranges are
    nested in the wider ranges, the narrower result is a subsequence of the
    wider result. *)
Theorem filterApartments_narrowing (D : list apartmentsItem)
  (rs rs' : list Z) (pr pr' sr sr' : Z * Z) :
  rs' = [] \/ (rs <> [] /\ incl rs rs') ->
  fst pr' <= fst pr -> snd pr <= snd pr' ->
  fst sr' <= fst sr -> snd sr <= snd sr' ->
  exists R R' : list apartmentsItem,
    filterApartments (typed_filters rs pr sr) D = Ok R
    /\ filterApartments (typed_filters rs' pr' sr') D = Ok R'
    /\ sublist R R'.
Proof.
  intros Hrooms Hp1 Hp2 Hs1 Hs2.
  exists (List.filter (passes rs pr sr) D),
    (List.filter (passes rs' pr' sr') D).
  split; [apply Array_filter_total, filter_callback_typed |].
  split; [apply Array_filter_total, filter_callback_typed |].
  apply List_filter_sublist_impl. intros a.
  rewrite !passes_iff. intros (Hr & Hp & Hs).
  split; [| lia].
  destruct Hrooms as [-> | [Hne Hincl]]; [now left |].
  right. destruct Hr as [-> | Hin]; [congruence | now apply Hincl].
Qed.

(** ** sortApartments, continued *)

Lemma sort_insert_last {A : Type} (comparefn : A -> A -> Z) (x : A)
  (l : list A) :
  Forall (fun y => comparefn y x <= 0) l ->
  sort_insert comparefn x l = l ++ [x].
Proof.
  induction 1 as [| y l Hy _ IH]; simpl; [reflexivity |].
  destruct (Z.gtb_spec (comparefn y x) 0); [lia |]. now rewrite IH.
Qed.

Lemma StronglySorted_middle {A : Type} (R : A -> A -> Prop) (acc l : list A)
  (x : A) :
  StronglySorted R (acc ++ x :: l) -> Forall (fun y => R y x) acc.
Proof.
  induction acc as [| y acc IH]; simpl; intros H; [constructor |].
  apply StronglySorted_inv in H as [Hs Hy].
  constructor; [| now apply IH].
  rewrite List.Forall_forall in Hy. apply Hy, in_or_app. right. now left.
Qed.

Lemma Array_sort_from_sorted_input {A : Type} (comparefn : A -> A -> Z)
  (l : list A) :
  forall acc,
    StronglySorted (fun a b => comparefn a b <= 0) (acc ++ l) ->
    fold_left (fun acc x => sort_insert comparefn x acc) l acc = acc ++ l.
Proof.
  induction l as [| x l IH]; intros acc Hs; simpl.
  - now rewrite app_nil_r.
  - rewrite sort_insert_last by exact (StronglySorted_middle _ _ _ _ Hs).
    rewrite IH; rewrite <- app_assoc; [reflexivity | exact Hs].
Qed.

Section SortAndFilter.

Context {A : Type}.
Variables (key : A -> Z) (comparefn : A -> A -> Z).
Hypothesis comparefn_key : forall a b, comparefn a b = key a - key b.
Variable p : A -> bool.

Let key_le (a b : A) : Prop := key a <= key b.

Lemma sort_insert_first (x : A) (l : list A) :
  Forall (fun z => key x < key z) l -> sort_insert comparefn x l = x :: l.
Proof.
  destruct 1 as [| z l Hz _]; simpl; [reflexivity |].
  rewrite comparefn_key.
  destruct (Z.gtb_spec (key z - key x) 0); [reflexivity | lia].
Qed.

Lemma sort_insert_filter_commute (x : A) (l : list A) :
  StronglySorted key_le l ->
  List.filter p (sort_insert comparefn x l)
  = if p x then sort_insert comparefn x (List.filter p l) else List.filter p l.
Proof.
  induction 1 as [| y l Hl IH Hy]; simpl.
  - destruct (p x); reflexivity.
  - rewrite comparefn_key.
    destruct (Z.gtb_spec (key y - key x) 0) as [Hgt | Hle].
    + cbn [List.filter]. destruct (p x); [| reflexivity].
      symmetry. apply sort_insert_first.
      change (Forall (fun z => key x < key z) (List.filter p (y :: l))).
      rewrite List.Forall_forall. intros z Hz.
      apply filter_In in Hz as [Hz _]. destruct Hz as [<- | Hz]; [lia |].
      rewrite List.Forall_forall in Hy. specialize (Hy z Hz).
      unfold key_le in Hy. lia.
    + cbn [List.filter]. rewrite IH.
      destruct (p y), (p x); try reflexivity.
      cbn [sort_insert]. rewrite comparefn_key.
      destruct (Z.gtb_spec (key y - key x) 0); [lia | reflexivity].
Qed.

Lemma Array_sort_from_filter_commute (l : list A) :
  forall acc,
    StronglySorted key_le acc ->
    List.filter p (fold_left (fun acc x => sort_insert comparefn x acc) l acc)
    = fold_left (fun acc x => sort_insert comparefn x acc)
        (List.filter p l) (List.filter p acc).
Proof.
  induction l as [| x l IH]; intros acc Hacc; simpl; [reflexivity |].
  rewrite IH by now apply (sort_insert_sorted key comparefn).
  rewrite sort_insert_filter_commute by exact Hacc.
  destruct (p x); reflexivity.
Qed.

Lemma Array_sort_filter_commute (l : list A) :
  List.filter p (Array_sort comparefn l)
  = Array_sort comparefn (List.filter p l).
Proof.
  unfold Array_sort. rewrite Array_sort_from_filter_commute by constructor.
  reflexivity.
Qed.

End SortAndFilter.

(** X6.  Sorting a sorted result again by the same option changes nothing,
    and sorting keeps the number of elements. *)
Theorem sortApartments_idempotent (D : list apartmentsItem) (S : SortOption) :
  sortApartments (sortApartments D S) S = sortApartments D S
  /\ length (sortApartments D S) = length D.
Proof.
  split.
  - destruct S; try reflexivity;
      (apply (Array_sort_from_sorted_input _ _ []);
       eapply Array_sort_sorted, sortMapper_key).
  - destruct S; try reflexivity;
      (symmetry; apply Permutation_length;
       apply (Array_sort_Permutation (sortMapper _))).
Qed.

(** X7.  Filtering and sorting commute: filtering the sorted dataset gives
    the sorted result of filtering the dataset, for every sort option. *)
Theorem filter_sort_commute (D : list apartmentsItem) (S : SortOption)
  (rs : list Z) (pr sr : Z * Z) :
  exists R : list apartmentsItem,
    filterApartments (typed_filters rs pr sr) D = Ok R
    /\ filterApartments (typed_filters rs pr sr) (sortApartments D S)
       = Ok (sortApartments R S).
Proof.
  exists (List.filter (passes rs pr sr) D).
  split; [apply Array_filter_total, filter_callback_typed |].
  unfold filterApartments.
  rewrite (Array_filter_total _ (passes rs pr sr))
    by apply filter_callback_typed.
  f_equal. destruct S; try reflexivity; unfold sortApartments;
    match goal with
    | |- context [sortMapper ?o] =>
        apply (Array_sort_filter_commute (sort_key o)), sortMapper_key
    end.
Qed.

(** ** The pipeline and the mutators *)

Lemma filterApartments_typed (rs : list Z) (pr sr : Z * Z)
  (D : list apartmentsItem) :
  filterApartments (typed_filters rs pr sr) D
  = Ok (List.filter (passes rs pr sr) D).
Proof. apply Array_filter_total, filter_callback_typed. Qed.

Lemma applyFiltersAndSort_typed (rs : list Z) (pr sr : Z * Z) (w : world) :
  filters (store w) = typed_filters rs pr sr ->
  applyFiltersAndSort w
  = (Ok tt, with_store (recomputed rs pr sr (sortBy (store w))) w).
Proof.
  intros Hf. rewrite applyFiltersAndSort_run, Hf, filterApartments_typed.
  destruct w as [s st c n pf pd].
  destruct s as [all disp filt page ipp load err sb init rms flt].
  simpl in *. subst.
  unfold recomputed, with_store. simpl.
  destruct (length all =? 0)%nat; reflexivity.
Qed.

(** X8.  Running the recompute pipeline a second time, with nothing changed
    in between, gives the same outcome and leaves the world as the first
    run left it. *)
Theorem applyFiltersAndSort_idempotent (w : world) :
  applyFiltersAndSort (exec applyFiltersAndSort w)
  = (fst (applyFiltersAndSort w), exec applyFiltersAndSort w).
Proof.
  pose proof (applyFiltersAndSort_run w) as Hrun. unfold exec.
  destruct (length (allApartments (store w)) =? 0)%nat eqn:Hlen.
  - rewrite Hrun. cbn [fst snd]. exact Hrun.
  - destruct (filterApartments (filters (store w)) (allApartments (store w)))
      as [R | e] eqn:HR; rewrite Hrun; cbn [fst snd].
    + rewrite applyFiltersAndSort_run. cbn -[take filterApartments].
      rewrite Hlen, HR.
      reflexivity.
    + exact Hrun.
Qed.

Ltac run_mutator :=
  unfold setSortBy, setRoomsFilter, setPriceRange, setSquareRange,
    resetFilters, mbind, M_bind, assign, saveFilters, get,
    localStorage_setItem, effect;
  cbn beta iota.

Ltac recompute_with rs pr sr :=
  match goal with
  | |- context [applyFiltersAndSort ?w0] =>
      rewrite (applyFiltersAndSort_typed rs pr sr w0 eq_refl)
  end.

Ltac finish_mutator :=
  unfold recomputed, with_store, with_storage; simpl;
  match goal with
  | |- context [(length ?l =? 0)%nat] => destruct (length l =? 0)%nat
  end; reflexivity.

(** X9.  On filters of the declared shape the four mutators never throw:
    each one stores its argument, recomputes the filtered list (filter, then
    sort), goes back to page 1 with the first [itemsPerPage] elements
    displayed when the dataset is not empty, and writes the new filters and
    sort into the storage slot. *)
Theorem mutators_recompute_and_persist (w : world)
  (rs : list Z) (pr sr : Z * Z) :
  filters (store w) = typed_filters rs pr sr ->
  let o := sortBy (store w) in
  let saved rs pr sr o w' :=
    (Ok tt, with_storage (Some (JSON_stringify (typed_filters rs pr sr) o))
              (with_store (recomputed rs pr sr o) w')) in
  (forall o', setSortBy o' w = saved rs pr sr o' w)
  /\ (forall rs', setRoomsFilter rs' w = saved rs' pr sr o w)
  /\ (forall pr', setPriceRange pr' w = saved rs pr' sr o w)
  /\ (forall sr', setSquareRange sr' w = saved rs pr sr' o w).
Proof.
  intros Hf o saved. subst o saved.
  destruct w as [s st c n pf pd]. destruct s. simpl in Hf. subst.
  repeat split; intros x.
  - run_mutator. recompute_with rs pr sr.
    finish_mutator.
  - run_mutator. recompute_with x pr sr.
    finish_mutator.
  - run_mutator. recompute_with rs x sr.
    finish_mutator.
  - run_mutator. recompute_with rs pr x.
    finish_mutator.
Qed.

(** X11.  [resetFilters] never throws, whatever the filters were (also after
    a restoration that left them without ranges): it installs the default
    filters and sort, recomputes with them and persists them. *)
Theorem resetFilters_recovers (w : world) :
  resetFilters w
  = (Ok tt,
     with_storage (Some (JSON_stringify default_filters default))
       (with_store
          (recomputed [] (DEFAULT_PRICE_MIN, DEFAULT_PRICE_MAX)
             (DEFAULT_SQUARE_MIN, DEFAULT_SQUARE_MAX) default) w)).
Proof.
  destruct w as [s st c n pf pd]. destruct s.
  run_mutator.
  recompute_with (@nil Z) (DEFAULT_PRICE_MIN, DEFAULT_PRICE_MAX)
    (DEFAULT_SQUARE_MIN, DEFAULT_SQUARE_MAX).
  finish_mutator.
Qed.

Lemma Array_filter_throws {A : Type} (cb : A -> result bool) (e0 : Error)
  (l : list A) :
  (forall x e, cb x = Throw e -> e = e0) ->
  forall e, Array_filter cb l = Throw e -> e = e0.
Proof.
  intros Hcb. induction l as [| x l IH]; simpl; intros e H; [discriminate |].
  destruct (cb x) as [b |] eqn:Hx; simpl in H.
  - destruct (Array_filter cb l); simpl in H; [discriminate |].
    apply IH. congruence.
  - apply (Hcb x). congruence.
Qed.

Lemma filterApartments_throws_TypeError (f : FilterState.t)
  (D : list apartmentsItem) (e : Error) :
  filterApartments f D = Throw e -> e = TypeError.
Proof.
  apply Array_filter_throws. intros a e'. unfold filter_callback.
  destruct f as [[rs |] [[pmin pmax] |] [[smin smax] |]]; simpl;
    repeat match goal with
      | |- context [if ?b then _ else _] => destruct b; simpl
      end; unfold mret, result_ret; congruence.
Qed.

(** A mutator whose recompute pipeline throws. *)
Lemma mutator_throws (f : state -> state) (w : world) (e : Error) :
  (forall s, same_window s (f s)) ->
  fst ((assign f;; applyFiltersAndSort;; saveFilters) w) = Throw e ->
  e = TypeError
  /\ exec (assign f;; applyFiltersAndSort;; saveFilters) w = with_store f w.
Proof.
  intros Hf. unfold exec, mbind, M_bind, assign. cbn beta iota.
  rewrite applyFiltersAndSort_run.
  destruct (length (allApartments (store (with_store f w))) =? 0)%nat;
    [discriminate |].
  destruct (filterApartments _ _) as [R | e'] eqn:HR; [discriminate |].
  cbn [fst snd]. intros [= ->].
  split; [exact (filterApartments_throws_TypeError _ _ _ HR) | reflexivity].
Qed.

(** X10.  When a mutator throws, the exception is the TypeError of the
    recompute pipeline; the storage slot, the filtered and displayed lists
    and the page are left as they were (the new value itself stays
    assigned). *)
Theorem mutators_throw_without_saving (w : world) (e : Error) :
  let unsaved (m : M unit) :=
    fst (m w) = Throw e ->
    e = TypeError
    /\ storage (exec m w) = storage w
    /\ filteredApartments (store (exec m w)) = filteredApartments (store w)
    /\ displayedApartments (store (exec m w)) = displayedApartments (store w)
    /\ currentPage (store (exec m w)) = currentPage (store w) in
  (forall o, unsaved (setSortBy o))
  /\ (forall rs, unsaved (setRoomsFilter rs))
  /\ (forall range, unsaved (setPriceRange range))
  /\ (forall range, unsaved (setSquareRange range)).
Proof.
  cbv zeta.
  assert (Hall : forall f : state -> state,
            (forall s, same_window s (f s)) ->
            let m := assign f;; applyFiltersAndSort;; saveFilters in
            fst (m w) = Throw e ->
            e = TypeError
            /\ storage (exec m w) = storage w
            /\ filteredApartments (store (exec m w))
               = filteredApartments (store w)
            /\ displayedApartments (store (exec m w))
               = displayedApartments (store w)
            /\ currentPage (store (exec m w)) = currentPage (store w)).
  { intros f Hf m H. subst m.
    destruct (mutator_throws f w e Hf H) as [He ->].
    destruct (Hf (store w)) as (Hd & Hfl & Hp & _).
    repeat split; assumption. }
  split; [| split; [| split]]; intros x.
  - apply (Hall (set_sortBy x)). now intros s.
  - refine (Hall (fun s => set_filters _ s) _). now intros s.
  - refine (Hall (fun s => set_filters _ s) _). now intros s.
  - refine (Hall (fun s => set_filters _ s) _). now intros s.
Qed.

(** X12.  [resetRooms] clears the [active] flag of every room option and
    nothing else: names, values and [disabled] flags, the filters, the lists
    and the storage slot are untouched, and the recompute pipeline gives
    the same lists before and after it. *)
Theorem resetRooms_only_clears_flags (w : world) :
  let w' := exec resetRooms w in
  Forall (fun r => RoomOption.active r = false) (rooms (store w'))
  /\ map RoomOption.name (rooms (store w'))
     = map RoomOption.name (rooms (store w))
  /\ map RoomOption.value (rooms (store w'))
     = map RoomOption.value (rooms (store w))
  /\ map RoomOption.disabled (rooms (store w'))
     = map RoomOption.disabled (rooms (store w))
  /\ filters (store w') = filters (store w)
  /\ filteredApartments (store w') = filteredApartments (store w)
  /\ displayedApartments (store w') = displayedApartments (store w)
  /\ storage w' = storage w
  /\ applyFiltersAndSort w'
     = (fst (applyFiltersAndSort w),
        exec resetRooms (exec applyFiltersAndSort w)).
Proof.
  cbv zeta. change (rooms (store (exec resetRooms w)))
    with (map (RoomOption.set_active false) (rooms (store w))).
  rewrite !map_map. repeat split.
  - apply List.Forall_forall. intros r Hr.
    apply in_map_iff in Hr as (r0 & <- & _). reflexivity.
  - unfold exec. rewrite !applyFiltersAndSort_run.
    change (allApartments (store (resetRooms w).2))
      with (allApartments (store w)).
    change (filters (store (resetRooms w).2)) with (filters (store w)).
    destruct (length (allApartments (store w)) =? 0)%nat; [reflexivity |].
    destruct (filterApartments _ _); reflexivity.
Qed.

Lemma sortApartments_length (D : list apartmentsItem) (S : SortOption) :
  length (sortApartments D S) = length D.
Proof.
  destruct S; try reflexivity;
    (symmetry; apply Permutation_length;
     apply (Array_sort_Permutation (sortMapper _))).
Qed.

(** X14.  A fetch on an empty store, answered with a non-empty dataset while
    the slot holds well-shaped filters and a sort: the store ends with the
    dataset, the restored filters and sort, the room flags set from the
    restored room list, the filtered and sorted list, page 1 and its window,
    no error and no loading flag; [isEmpty] is then true exactly when no
    apartment passes the restored filters. *)
Theorem fetchApartments_restores_and_recomputes
  (getApartments : nat -> response) (w : world) (D : list apartmentsItem)
  (rs : list Z) (pr sr : Z * Z) (o : SortOption) :
  allApartments (store w) = [] ->
  getApartments (fetch_calls w) = Ok D ->
  D <> [] ->
  storage w
  = Some (Text_json (JValue (Some (typed_filters rs pr sr)) (Some o))) ->
  let sorted := sortApartments (List.filter (passes rs pr sr) D) o in
  store (exec (fetchApartments getApartments) w)
  = {| allApartments := D;
       displayedApartments := take (itemsPerPage (store w)) sorted;
       filteredApartments := sorted;
       currentPage := 1;
       itemsPerPage := itemsPerPage (store w);
       isLoading := false;
       error := None;
       sortBy := o;
       hasInitialized := true;
       rooms := map (sync_room rs) (rooms (store w));
       filters := typed_filters rs pr sr |}
  /\ (isEmpty (store (exec (fetchApartments getApartments) w)) = true
      <-> forall a, In a D -> passes rs pr sr a = false).
Proof.
  intros Hempty Hanswer HD Hslot sorted. subst sorted.
  match goal with |- ?P /\ _ => assert (Hstore : P) end; [| split].
  2: exact Hstore.
  2: { rewrite Hstore. unfold isEmpty. cbn -[sortApartments List.filter].
       rewrite sortApartments_length.
       destruct D as [| a0 D0]; [congruence |]. cbn [length Nat.ltb Nat.leb].
       rewrite andb_true_l, Nat.eqb_eq, length_zero_iff_nil.
       split.
       - intros Hnil a Ha.
         destruct (passes rs pr sr a) eqn:Hp; [| reflexivity].
         assert (Hin : In a (List.filter (passes rs pr sr) (a0 :: D0)))
           by (apply filter_In; auto).
         rewrite Hnil in Hin. destruct Hin.
       - intros Hnone. apply List_filter_none. exact Hnone. }
  unfold exec.
  rewrite (fetchApartments_performed _ _ Hempty), Hanswer.
  destruct w as [s st c n pf pd]. simpl in Hslot. subst st.
  unfold fetchApartments_resume, try_finally, try_catch, mbind, M_bind,
    effect, assign, lift.
  cbn beta iota. rewrite initPersistedState_run.
  cbn beta iota delta
    [storage with_store with_pending_fetches with_fetch_calls nullish
     typed_filters FilterState.rooms store set_filters filters
     set_hasInitialized set_allApartments].
  cbn beta iota zeta. rewrite applyFiltersAndSort_run.
  cbn -[filterApartments take sortApartments List.filter].
  change {| FilterState.rooms := Some rs; FilterState.priceRange := Some pr;
            FilterState.squareRange := Some sr |}
    with (typed_filters rs pr sr).
  rewrite filterApartments_typed.
  destruct D as [| a D]; [congruence |]. reflexivity.
Qed.

(** X15.  A fetch answered with an empty dataset marks the store initialized
    but leaves [allApartments] empty and the lists as they were, sets no
    error, and does not latch the guard: the next call invokes the
    collaborator again. *)
Theorem fetchApartments_empty_dataset
  (getApartments : nat -> response) (w : world) :
  allApartments (store w) = [] ->
  getApartments (fetch_calls w) = Ok [] ->
  let w' := exec (fetchApartments getApartments) w in
  allApartments (store w') = []
  /\ hasInitialized (store w') = true
  /\ isLoading (store w') = false
  /\ error (store w') = None
  /\ hasNoData (store w') = true
  /\ filteredApartments (store w') = filteredApartments (store w)
  /\ displayedApartments (store w') = displayedApartments (store w)
  /\ forall retry : nat -> response,
       fetch_calls (exec (fetchApartments retry) w') = S (S (fetch_calls w)).
Proof.
  intros Hempty Hanswer w'.
  assert (Hw' : exists f o rs lg,
            w' = {| store :=
                      set_isLoading false
                        (set_rooms rs (set_sortBy o (set_filters f
                           (set_hasInitialized true
                              (set_allApartments []
                                 (set_error None
                                    (set_isLoading true (store w))))))));
                    storage := storage w; console := lg;
                    fetch_calls := S (fetch_calls w);
                    pending_fetches := pending_fetches w;
                    pending_delays := pending_delays w |}).
  { subst w'. unfold exec.
    rewrite (fetchApartments_performed _ _ Hempty), Hanswer.
    unfold fetchApartments_resume, try_finally, try_catch, mbind, M_bind,
      effect, assign, lift.
    cbn beta iota.
    match goal with
    | |- context [initPersistedState ?w0] =>
        destruct (initPersistedState_frame w0) as (f & o & rs & lg & ->)
    end.
    rewrite applyFiltersAndSort_run. cbn.
    exists f, o, rs, lg. reflexivity. }
  destruct Hw' as (f & o & rs & lg & Hw').
  assert (Hstill : allApartments (store w') = []) by (rewrite Hw'; reflexivity).
  repeat split; try (rewrite Hw'; reflexivity).
  intros retry. unfold exec.
  rewrite (fetchApartments_performed _ _ Hstill).
  match goal with
  | |- context [fetchApartments_resume ?r ?w0] =>
      destruct (fetchApartments_resume_facts r w0) as (_ & _ & Hcalls & _)
  end.
  unfold exec in Hcalls. rewrite Hcalls, Hw'. reflexivity.
Qed.

(** X16.  The guard of [fetchApartments] looks at the dataset, not at the
    loading flag: two calls made before the first one settles both invoke
    the collaborator.  [loadMore] is guarded by the loading flag: of two calls
    made in a row the second never starts a delay. *)
Theorem overlapping_calls (w : world) :
  (allApartments (store w) = [] ->
   let w2 := exec fetchApartments_begin (exec fetchApartments_begin w) in
   fetch_calls w2 = S (S (fetch_calls w))
   /\ pending_fetches w2 = S (S (pending_fetches w)))
  /\ loadMore_begin (exec loadMore_begin w)
     = (Ok false, exec loadMore_begin w)
  /\ (pending_delays (exec loadMore_begin (exec loadMore_begin w))
      <= S (pending_delays w))%nat.
Proof.
  split; [| split].
  - intros Hempty. unfold exec. rewrite !fetchApartments_begin_run.
    rewrite Hempty. cbn. rewrite Hempty. split; reflexivity.
  - unfold exec, loadMore_begin, mbind, M_bind, get. cbn beta iota.
    destruct (negb (hasMoreItems (store w)) || isLoading (store w)) eqn:Hg;
      cbn -[hasMoreItems negb orb];
      [now rewrite Hg | now rewrite orb_true_r].
  - unfold exec, loadMore_begin, mbind, M_bind, get. cbn beta iota.
    destruct (negb (hasMoreItems (store w)) || isLoading (store w)) eqn:Hg;
      cbn -[hasMoreItems negb orb];
      [rewrite Hg; cbn; lia | rewrite orb_true_r; cbn; lia].
Qed.

Lemma fetchApartments_resume_error (outcome : response) (w : world)
  (e : Error) :
  error (store w) = None ->
  error (store (exec (fetchApartments_resume outcome) w)) = Some e ->
  exists rest, console (exec (fetchApartments_resume outcome) w)
               = error_fetch e :: rest.
Proof.
  intros Hnone. destruct outcome as [data | e0].
  - unfold exec, fetchApartments_resume, try_finally, try_catch, mbind, M_bind,
      effect, assign, lift.
    cbn beta iota.
    match goal with
    | |- context [initPersistedState ?w0] =>
        destruct (initPersistedState_frame w0) as (f & o & rs & lg & ->)
    end.
    rewrite applyFiltersAndSort_run. cbn.
    destruct (length data =? 0)%nat; cbn; [congruence |].
    destruct (Array_filter (filter_callback f) data); cbn; [congruence |].
    intros [= ->]. eauto.
  - cbn. intros [= ->]. eauto.
Qed.

(** X17.  [fetchApartments] and [loadMore] never throw; when a fetch that
    was performed leaves an error in the store, that error is the newest
    entry of the console. *)
Theorem fetchApartments_and_loadMore_never_throw
  (getApartments : nat -> response) (w : world) :
  fst (fetchApartments getApartments w) = Ok tt
  /\ fst (loadMore w) = Ok tt
  /\ forall e : Error,
       allApartments (store w) = [] ->
       error (store (exec (fetchApartments getApartments) w)) = Some e ->
       exists rest,
         console (exec (fetchApartments getApartments) w)
         = error_fetch e :: rest.
Proof.
  split; [| split].
  - unfold fetchApartments, mbind, M_bind. rewrite fetchApartments_begin_run.
    destruct (0 <? length (allApartments (store w)))%nat; [reflexivity |].
    apply fetchApartments_resume_facts.
  - rewrite loadMore_run.
    destruct (negb (hasMoreItems (store w)) || isLoading (store w));
      reflexivity.
  - intros e Hempty. unfold exec.
    rewrite (fetchApartments_performed _ _ Hempty).
    apply fetchApartments_resume_error. reflexivity.
Qed.

(** ** Paging *)

Ltac run_store :=
  unfold exec, fetchApartments_resume, loadMore_resume, reset, try_finally,
    try_catch, mbind, M_bind, effect, assign, lift, console_log, saveFilters,
    get, localStorage_setItem;
  cbn.

Ltac solve_paging Hp Hi Hl :=
  split;
  [ run_store; lia
  | split;
    [ exact Hi
    | run_store;
      first [ exact Hl | intros H; discriminate H | intros; lia ] ] ].

Lemma applyFiltersAndSort_paging (w : world) :
  paging_invariant w -> paging_invariant (exec applyFiltersAndSort w).
Proof.
  intros Hw. unfold exec. rewrite applyFiltersAndSort_run.
  destruct (length (allApartments (store w)) =? 0)%nat; [exact Hw |].
  destruct (filterApartments _ _); [| exact Hw].
  destruct Hw as (Hp & Hi & Hl). solve_paging Hp Hi Hl.
Qed.

Lemma mutator_paging (f : state -> state) (w : world) :
  (forall s, same_window s (f s) /\ isLoading (f s) = isLoading s) ->
  paging_invariant w ->
  paging_invariant (exec (assign f;; applyFiltersAndSort;; saveFilters) w).
Proof.
  intros Hf Hw.
  assert (Hw1 : paging_invariant (with_store f w)).
  { destruct Hw as (Hp & Hi & Hl).
    destruct (Hf (store w)) as ((_ & _ & Hp' & Hi') & Hl').
    unfold paging_invariant. cbn. rewrite Hp', Hi', Hl'. auto. }
  apply applyFiltersAndSort_paging in Hw1.
  unfold exec in *. unfold mbind, M_bind, assign. cbn beta iota.
  destruct (applyFiltersAndSort (with_store f w)) as [[[] | e] w1];
    exact Hw1.
Qed.

Lemma fetchApartments_resume_paging (outcome : response) (w : world) :
  paging_invariant w ->
  paging_invariant (exec (fetchApartments_resume outcome) w).
Proof.
  intros (Hp & Hi & Hl). destruct outcome as [data | e].
  - unfold exec, fetchApartments_resume, try_finally, try_catch, mbind, M_bind,
      effect, assign, lift.
    cbn beta iota.
    match goal with
    | |- context [initPersistedState ?w0] =>
        destruct (initPersistedState_frame w0) as (f & o & rs & lg & ->)
    end.
    rewrite applyFiltersAndSort_run. cbn.
    destruct (length data =? 0)%nat; [solve_paging Hp Hi Hl |].
    destruct (Array_filter (filter_callback f) data);
      solve_paging Hp Hi Hl.
  - solve_paging Hp Hi Hl.
Qed.

Lemma step_paging (w w' : world) :
  step w w' -> paging_invariant w -> paging_invariant w'.
Proof.
  intros Hstep Hw. destruct Hstep.
  - unfold exec. rewrite fetchApartments_begin_run.
    destruct (0 <? length (allApartments (store w)))%nat; [exact Hw |].
    destruct Hw as (Hp & Hi & Hl). solve_paging Hp Hi Hl.
  - now apply fetchApartments_resume_paging.
  - unfold exec, loadMore_begin, mbind, M_bind, get. cbn beta iota.
    destruct (negb (hasMoreItems (store w)) || isLoading (store w));
      [exact Hw |].
    destruct Hw as (Hp & Hi & Hl). solve_paging Hp Hi Hl.
  - destruct Hw as (Hp & Hi & Hl). solve_paging Hp Hi Hl.
  - apply mutator_paging; [| exact Hw]. now intros s.
  - apply mutator_paging; [| exact Hw]. now intros s.
  - exact Hw.
  - apply mutator_paging; [| exact Hw]. now intros s.
  - apply mutator_paging; [| exact Hw]. now intros s.
  - refine (mutator_paging
              (fun s => set_sortBy default (set_filters default_filters s)) w
              _ Hw).
    now intros s.
  - destruct Hw as (Hp & Hi & Hl). unfold paging_invariant.
    rewrite reset_store. cbn.
    split; [lia | split; [exact Hi | discriminate]].
  - exact Hw.
Qed.

Lemma reachable_paging (w : world) : reachable w -> paging_invariant w.
Proof.
  induction 1 as [slot | w w' _ IH Hstep].
  - split; [cbn; lia | split; [reflexivity | discriminate]].
  - exact (step_paging _ _ Hstep IH).
Qed.

Lemma reachable_window (w : world) :
  reachable w -> window_invariant (store w).
Proof.
  induction 1 as [slot | w w' _ IH Hstep].
  - reflexivity.
  - exact (step_invariant _ _ Hstep IH).
Qed.

(** X18.  In every world a session can reach, [currentPage] is at least 1,
    [itemsPerPage] is 5, no more is displayed than is filtered, and
    [hasMoreItems] is false exactly when the displayed list is the whole
    filtered list. *)
Theorem reachable_paging_facts (w : world) :
  reachable w ->
  (1 <= currentPage (store w))%nat
  /\ itemsPerPage (store w) = 5%nat
  /\ (length (displayedApartments (store w))
      <= length (filteredApartments (store w)))%nat
  /\ (hasMoreItems (store w) = false
      <-> displayedApartments (store w) = filteredApartments (store w)).
Proof.
  intros Hreach.
  destruct (reachable_paging w Hreach) as (Hp & Hi & _).
  pose proof (reachable_window w Hreach) as Hwin.
  unfold window_invariant in Hwin.
  assert (Hlen : (length (displayedApartments (store w))
                  <= length (filteredApartments (store w)))%nat)
    by (rewrite Hwin, length_take; lia).
  repeat split; try assumption.
  - unfold hasMoreItems. intros Hmore. apply Nat.ltb_ge in Hmore.
    rewrite Hwin. apply take_ge. rewrite Hwin, length_take in Hmore. lia.
  - unfold hasMoreItems. intros ->. apply Nat.ltb_irrefl.
Qed.

(** X19.  In every world a session can reach, a raised loading flag comes
    with a suspended [fetchApartments] or [loadMore], whose second part
    clears it. *)
Theorem loading_flag_has_pending_work (w : world) :
  reachable w ->
  isLoading (store w) = true ->
  (0 < pending_fetches w + pending_delays w)%nat.
Proof. intros Hreach. apply (reachable_paging w Hreach). Qed.

(** X20.  In every world a session can reach, [hasMoreItems] is false
    exactly when [currentPage] has reached [totalPages]. *)
Theorem hasMoreItems_totalPages (w : world) :
  reachable w ->
  hasMoreItems (store w) = false
  <-> (totalPages (store w) <= currentPage (store w))%nat.
Proof.
  intros Hreach.
  destruct (reachable_paging w Hreach) as (_ & Hi & _).
  pose proof (reachable_window w Hreach) as Hwin.
  unfold hasMoreItems, totalPages, window_invariant in *.
  rewrite Hwin, length_take, Hi. unfold ITEMS_PER_PAGE.
  rewrite Nat.ltb_ge.
  set (n := length (filteredApartments (store w))).
  set (p := currentPage (store w)).
  pose proof (Nat.div_mod_eq (n + 5 - 1) 5) as Hdiv.
  pose proof (Nat.mod_upper_bound (n + 5 - 1) 5) as Hmod.
  split; intros H; lia.
Qed.

Lemma loadMore_step (w : world) :
  window_invariant (store w) ->
  isLoading (store w) = false ->
  let s := store w in
  let s' := store (exec loadMore w) in
  window_invariant s'
  /\ isLoading s' = false
  /\ filteredApartments s' = filteredApartments s
  /\ itemsPerPage s' = itemsPerPage s
  /\ (currentPage s <= currentPage s' <= S (currentPage s))%nat
  /\ displayedApartments s'
     = take (S (currentPage s) * itemsPerPage s) (filteredApartments s).
Proof.
  intros Hwin Hidle s s'. subst s s'. rewrite exec_loadMore_store. cbv zeta.
  rewrite Hidle, orb_false_r.
  destruct (hasMoreItems (store w)) eqn:Hmore; cbn [negb].
  - unfold window_invariant. cbn -[take Nat.mul]. repeat split; lia.
  - repeat split; try assumption; try lia.
    unfold hasMoreItems in Hmore. apply Nat.ltb_ge in Hmore.
    unfold window_invariant in Hwin.
    rewrite Hwin, length_take in Hmore.
    rewrite Hwin, !take_ge; [reflexivity | lia | lia].
Qed.

(** X21.  From a store whose window is in order and that is not loading,
    [k] awaited calls of [loadMore] leave the filtered list as it was and
    display its first [(currentPage + k) * itemsPerPage] elements; once that
    number covers the filtered list everything is displayed and
    [hasMoreItems] is false. *)
Theorem loadMore_times_window (k : nat) :
  forall w : world,
    window_invariant (store w) ->
    isLoading (store w) = false ->
    let s := store w in
    let s' := store (loadMore_times k w) in
    filteredApartments s' = filteredApartments s
    /\ displayedApartments s'
       = take ((currentPage s + k) * itemsPerPage s) (filteredApartments s)
    /\ ((length (filteredApartments s)
         <= (currentPage s + k) * itemsPerPage s)%nat ->
        displayedApartments s' = filteredApartments s'
        /\ hasMoreItems s' = false).
Proof.
  assert (Hmain : forall k w,
            window_invariant (store w) ->
            isLoading (store w) = false ->
            filteredApartments (store (loadMore_times k w))
            = filteredApartments (store w)
            /\ displayedApartments (store (loadMore_times k w))
               = take ((currentPage (store w) + k) * itemsPerPage (store w))
                   (filteredApartments (store w))).
  { clear k. induction k as [| k IH]; intros w Hwin Hidle.
    - cbn [loadMore_times]. rewrite Nat.add_0_r.
      split; [reflexivity | exact Hwin].
    - cbn [loadMore_times].
      destruct (loadMore_step w Hwin Hidle)
        as (Hwin' & Hidle' & Hf & Hi & Hp & Hd).
      destruct (IH _ Hwin' Hidle') as (IHf & IHd).
      rewrite IHf, IHd, Hf, Hi. split; [reflexivity |].
      assert (Hcases : currentPage (store (exec loadMore w))
                       = S (currentPage (store w))
                       \/ currentPage (store (exec loadMore w))
                          = currentPage (store w)) by lia.
      destruct Hcases as [-> | Hsame].
      + f_equal. lia.
      + rewrite Hsame.
        unfold window_invariant in Hwin'. rewrite Hd, Hf, Hi, Hsame in Hwin'.
        assert (Hlen : (length (filteredApartments (store w))
                        <= currentPage (store w) * itemsPerPage (store w)
                        \/ itemsPerPage (store w) = 0)%nat).
        { apply (f_equal (@length _)) in Hwin'.
          rewrite !length_take in Hwin'. nia. }
        destruct Hlen as [Hlen | Hzero].
        * rewrite !take_ge; [reflexivity | nia | nia].
        * rewrite Hzero, !Nat.mul_0_r. reflexivity. }
  intros w Hwin Hidle s s'. subst s s'.
  destruct (Hmain k w Hwin Hidle) as (Hf & Hd).
  split; [exact Hf | split; [exact Hd |]].
  intros Hlen. rewrite Hd, Hf.
  assert (Hall : take ((currentPage (store w) + k) * itemsPerPage (store w))
                   (filteredApartments (store w))
                 = filteredApartments (store w)) by now apply take_ge.
  split; [exact Hall |].
  unfold hasMoreItems. rewrite Hd, Hf, Hall. apply Nat.ltb_irrefl.
Qed.

(** ** debounce, continued *)

Section DebounceMoreFacts.

Import Debounce.
Local Open Scope nat_scope.

Context {Args : Type}.
Variable func : Args -> result unit.
Variable wait : nat.
Hypothesis wait_in_range : (1 <= Z.of_nat wait <= TIMEOUT_MAX)%Z.

Lemma run_from_pending_rapid (rest : list (nat * Args)) :
  forall (p : nat * Args) (e : env Args),
    pending wait p e -> chronological (p :: rest) -> rapid wait (p :: rest) ->
    invoked (fold_left (call_at func wait) rest e) = invoked e
    /\ trailing_from wait p rest
       = [(fst (List.last rest p) + wait, snd (List.last rest p))].
Proof.
  induction rest as [| c rest IH]; intros p e Hp Hchron Hrapid.
  - split; reflexivity.
  - destruct Hchron as [Hle Hchron]. destruct Hrapid as [Hlt Hrapid].
    rewrite last_cons_default. cbn [fold_left trailing_from].
    destruct (call_at_pending_early func wait wait_in_range p c e Hp Hle Hlt)
      as [Hc Hinv].
    destruct (IH c _ Hc Hchron Hrapid) as [Hrun Htr].
    destruct (Nat.ltb_spec (fst c) (fst p + wait)); [| lia].
    split; [now rewrite Hrun, Hinv | exact Htr].
Qed.

Lemma trailing_from_spaced (rest : list (nat * Args)) :
  forall p : nat * Args,
    spaced wait (p :: rest) ->
    trailing_from wait p rest
    = map (fun c => (fst c + wait, snd c)) (p :: rest).
Proof.
  induction rest as [| c rest IH]; intros p [Hge Hspaced]; [reflexivity |].
  cbn [trailing_from]. destruct (Nat.ltb_spec (fst c) (fst p + wait)); [lia |].
  rewrite (IH c Hspaced). reflexivity.
Qed.

Lemma trailing_from_calls (rest : list (nat * Args)) :
  forall (p : nat * Args) (x : nat * Args),
    In x (trailing_from wait p rest) ->
    exists c, In c (p :: rest) /\ x = (fst c + wait, snd c).
Proof.
  induction rest as [| c rest IH]; intros p x Hx.
  - destruct Hx as [<- | []]. exists p. split; [now left | reflexivity].
  - cbn [trailing_from] in Hx.
    destruct (fst c <? fst p + wait).
    + destruct (IH c x Hx) as (c0 & Hc0 & ->). exists c0.
      split; [now right | reflexivity].
    + destruct Hx as [<- | Hx].
      * exists p. split; [now left | reflexivity].
      * destruct (IH c x Hx) as (c0 & Hc0 & ->). exists c0.
        split; [now right | reflexivity].
Qed.

Lemma trailing_from_length (rest : list (nat * Args)) :
  forall p : nat * Args,
    1 <= length (trailing_from wait p rest) <= S (length rest).
Proof.
  induction rest as [| c rest IH]; intros p; cbn [trailing_from length].
  - lia.
  - specialize (IH c). destruct (fst c <? fst p + wait); cbn [length]; lia.
Qed.

Lemma settle_pending_table (p : nat * Args) (e : env Args) :
  pending wait p e -> queue (settle func e) = [].
Proof.
  destruct e as [nw nh q tm inv].
  intros (Hnow & h & Hq & Htm); simpl in *; subst.
  unfold Debounce.settle; simpl. now rewrite Nat.eqb_refl.
Qed.

End DebounceMoreFacts.

(** X22.  For a [wait] between 1 and 2^31 - 1: as long as every call
    follows the previous one by less than [wait], the wrapped function is
    not invoked at all; it is invoked once, [wait] after the last call and
    with its arguments, when the calls stop. *)
Theorem debounce_rapid_calls_postpone {Args : Type}
  (func : Args -> result unit) (wait : nat)
  (c0 : nat * Args) (rest : list (nat * Args)) :
  (1 <= Z.of_nat wait <= Debounce.TIMEOUT_MAX)%Z ->
  Debounce.chronological (c0 :: rest) ->
  rapid wait (c0 :: rest) ->
  let last := List.last rest c0 in
  Debounce.invoked (Debounce.run func wait (c0 :: rest)) = []
  /\ Debounce.invoked
       (Debounce.settle func (Debounce.run func wait (c0 :: rest)))
     = [((fst last + wait)%nat, snd last)].
Proof.
  intros Hrange Hchron Hrapid last. subst last. unfold Debounce.run.
  cbn [fold_left].
  destruct (call_at_idle func wait Hrange Debounce.initial c0 initial_idle)
    as [Hp Hinv]; [simpl; lia |].
  destruct (run_from_pending_rapid func wait Hrange rest c0 _ Hp Hchron Hrapid)
    as [Hrun Htr].
  destruct (run_from_pending func wait Hrange rest c0 _ Hp Hchron)
    as [_ Hset].
  split; [now rewrite Hrun, Hinv |].
  now rewrite Hset, Hinv, Htr.
Qed.

(** X23.  For a [wait] between 1 and 2^31 - 1: when every call comes [wait]
    or more after the previous one, none is dropped: the wrapped function is
    invoked for each call, in order, [wait] after it, with its arguments. *)
Theorem debounce_spaced_calls_all_run {Args : Type}
  (func : Args -> result unit) (wait : nat) (calls : list (nat * Args)) :
  (1 <= Z.of_nat wait <= Debounce.TIMEOUT_MAX)%Z ->
  spaced wait calls ->
  Debounce.invoked (Debounce.settle func (Debounce.run func wait calls))
  = map (fun c => ((fst c + wait)%nat, snd c)) calls.
Proof.
  intros Hrange Hspaced.
  assert (Hchron : Debounce.chronological calls).
  { induction calls as [| c rest IH]; [exact I |].
    destruct Hspaced as [Hge Hspaced]. split; [| now apply IH].
    destruct rest; [exact I | lia]. }
  rewrite (run_settle func wait Hrange calls Hchron).
  destruct calls as [| p rest]; [reflexivity |].
  now apply trailing_from_spaced.
Qed.

(** X24.  For a [wait] between 1 and 2^31 - 1: every invocation of the
    wrapped function carries the arguments of one of the calls and happens
    [wait] after that call; there are no more invocations than calls, at
    least one when there was a call, and no timer is left once the schedule
    has settled. *)
Theorem debounce_invocations_come_from_calls {Args : Type}
  (func : Args -> result unit) (wait : nat) (calls : list (nat * Args)) :
  (1 <= Z.of_nat wait <= Debounce.TIMEOUT_MAX)%Z ->
  Debounce.chronological calls ->
  let e := Debounce.settle func (Debounce.run func wait calls) in
  (forall (t : nat) (a : Args),
     In (t, a) (Debounce.invoked e) ->
     exists c, In c calls /\ t = (fst c + wait)%nat /\ a = snd c)
  /\ (length (Debounce.invoked e) <= length calls)%nat
  /\ (calls <> [] -> (1 <= length (Debounce.invoked e))%nat)
  /\ Debounce.queue e = [].
Proof.
  intros Hrange Hchron e. subst e.
  rewrite (run_settle func wait Hrange calls Hchron).
  destruct calls as [| p rest].
  - split; [intros t a [] | split; [reflexivity | split; [congruence |]]].
    reflexivity.
  - cbn [Debounce.trailing].
    pose proof (trailing_from_length wait rest p) as Hlen.
    split; [| split; [cbn [length]; lia | split; [intros _; lia |]]].
    + intros t a Hin.
      destruct (trailing_from_calls wait rest p _ Hin) as (c & Hc & [= -> ->]).
      exists c. auto.
    + unfold Debounce.run. cbn [fold_left].
      destruct (call_at_idle func wait Hrange Debounce.initial p initial_idle)
        as [Hp _]; [simpl; lia |].
      destruct (run_from_pending func wait Hrange rest p _ Hp Hchron)
        as [Hlast _].
      exact (settle_pending_table func wait _ _ Hlast).
Qed.

(** * The further properties at concrete inputs *)

Lemma extractRoomsCount_marked_title_witness :
  no_digit "Квартира " = true
  /\ all_digits "12" = true
  /\ "12"%string <> EmptyString
  /\ parseInt10 "12" <= MAX_SAFE_INTEGER
  /\ extractRoomsCount "Квартира 12-комнатная, центр" = parseInt10 "12".
Proof.
  split; [reflexivity | split; [reflexivity | split; [discriminate |]]].
  split; [discriminate |].
  apply (extractRoomsCount_marked_title "Квартира " "12" ", центр");
    [reflexivity | reflexivity | discriminate | discriminate].
Defined.


Lemma filterApartments_undefined_filters_witness :
  let f := {| FilterState.rooms := None;
              FilterState.priceRange := Some (1, 2);
              FilterState.squareRange := Some (1, 2) |} in
  FilterState.rooms f = None
  /\ filterApartments f three_flats = Throw TypeError.
Proof.
  intros f. split; [reflexivity |].
  destruct filterApartments_undefined_filters as (_ & Hrooms & _).
  apply (Hrooms f). reflexivity.
Defined.

Lemma filterApartments_idempotent_witness :
  let f := typed_filters [2] (5500000, 8000000) (33, 123) in
  filterApartments f three_flats = Ok [flat 1 2 6000000 50]
  /\ filterApartments f [flat 1 2 6000000 50] = Ok [flat 1 2 6000000 50].
Proof.
  intros f. split; [reflexivity |].
  apply (filterApartments_idempotent f three_flats). reflexivity.
Defined.

Lemma filterApartments_narrowing_witness :
  ([1; 2] = [] \/ ([2] <> [] /\ incl [2] [1; 2]))
  /\ exists R R' : list apartmentsItem,
       filterApartments (typed_filters [2] (6000000, 8000000) (40, 60))
         three_flats = Ok R
       /\ filterApartments (typed_filters [1; 2] (5500000, 9000000) (33, 123))
            three_flats = Ok R'
       /\ sublist R R'.
Proof.
  assert (Hrooms : [1; 2] = [] \/ ([2] <> [] /\ incl [2] [1; 2])).
  { right. split; [discriminate |].
    intros x [<- | []]. right. left. reflexivity. }
  split; [exact Hrooms |].
  apply (filterApartments_narrowing three_flats [2] [1; 2]
           (6000000, 8000000) (5500000, 9000000) (40, 60) (33, 123) Hrooms);
    simpl; lia.
Defined.

Lemma mutators_recompute_and_persist_witness :
  filters (store fetched_world)
  = typed_filters [] (DEFAULT_PRICE_MIN, DEFAULT_PRICE_MAX)
      (DEFAULT_SQUARE_MIN, DEFAULT_SQUARE_MAX)
  /\ fst (setPriceRange (6000003, 6000004) fetched_world) = Ok tt
  /\ map id (displayedApartments
               (store (exec (setPriceRange (6000003, 6000004)) fetched_world)))
     = [3; 4]
  /\ storage (exec (setPriceRange (6000003, 6000004)) fetched_world)
     = Some (JSON_stringify
               (typed_filters [] (6000003, 6000004)
                  (DEFAULT_SQUARE_MIN, DEFAULT_SQUARE_MAX)) default).
Proof.
  split; [reflexivity |].
  destruct (mutators_recompute_and_persist fetched_world []
              (DEFAULT_PRICE_MIN, DEFAULT_PRICE_MAX)
              (DEFAULT_SQUARE_MIN, DEFAULT_SQUARE_MAX) eq_refl)
    as (_ & _ & Hprice & _).
  unfold exec. rewrite (Hprice (6000003, 6000004)).
  repeat split.
Defined.

Lemma mutators_throw_without_saving_witness :
  fst (setSortBy price_asc broken_world) = Throw TypeError
  /\ storage (exec (setSortBy price_asc) broken_world) = storage broken_world
  /\ filteredApartments (store (exec (setSortBy price_asc) broken_world))
     = filteredApartments (store broken_world).
Proof.
  assert (Hthrow : fst (setSortBy price_asc broken_world) = Throw TypeError)
    by reflexivity.
  split; [exact Hthrow |].
  destruct (mutators_throw_without_saving broken_world TypeError)
    as (Hsort & _).
  destruct (Hsort price_asc Hthrow) as (_ & Hst & Hf & _).
  split; assumption.
Defined.

Lemma fetchApartments_restores_and_recomputes_witness :
  let w := initial_world (Some stored_choice) in
  let getApartments : nat -> response := fun _ => Ok three_flats in
  allApartments (store w) = []
  /\ getApartments (fetch_calls w) = Ok three_flats
  /\ three_flats <> []
  /\ storage w = Some stored_choice
  /\ let s := store (exec (fetchApartments getApartments) w) in
     sortBy s = price_desc
     /\ FilterState.rooms (filters s) = Some [2]
     /\ map RoomOption.active (rooms s) = [false; true; false; false]
     /\ map id (filteredApartments s) = [1]
     /\ isEmpty s = false.
Proof.
  intros w getApartments.
  split; [reflexivity | split; [reflexivity | split; [discriminate |]]].
  split; [reflexivity |].
  destruct (fetchApartments_restores_and_recomputes getApartments w
              three_flats [2] (5500000, 8000000) (33, 123) price_desc
              eq_refl eq_refl ltac:(discriminate) eq_refl) as [Hstore _].
  cbv zeta. rewrite Hstore. repeat split.
Defined.

Lemma fetchApartments_empty_dataset_witness :
  let w := initial_world None in
  let getApartments : nat -> response := fun _ => Ok [] in
  allApartments (store w) = []
  /\ getApartments (fetch_calls w) = Ok []
  /\ hasInitialized (store (exec (fetchApartments getApartments) w)) = true
  /\ fetch_calls
       (exec (fetchApartments getApartments)
          (exec (fetchApartments getApartments) w)) = 2%nat.
Proof.
  intros w getApartments.
  split; [reflexivity | split; [reflexivity |]].
  destruct (fetchApartments_empty_dataset getApartments w eq_refl eq_refl)
    as (_ & Hinit & _ & _ & _ & _ & _ & Hretry).
  split; [exact Hinit | exact (Hretry getApartments)].
Defined.

Lemma overlapping_calls_witness :
  allApartments (store (initial_world None)) = []
  /\ fetch_calls
       (exec fetchApartments_begin
          (exec fetchApartments_begin (initial_world None))) = 2%nat.
Proof.
  split; [reflexivity |].
  destruct (overlapping_calls (initial_world None)) as (Hfetch & _).
  exact (proj1 (Hfetch eq_refl)).
Defined.

Lemma fetchApartments_and_loadMore_never_throw_witness :
  let w := initial_world (Some payload_without_ranges) in
  let getApartments : nat -> response := fun _ => Ok three_flats in
  allApartments (store w) = []
  /\ error (store (exec (fetchApartments getApartments) w)) = Some TypeError
  /\ fst (fetchApartments getApartments w) = Ok tt
  /\ exists rest,
       console (exec (fetchApartments getApartments) w)
       = error_fetch TypeError :: rest.
Proof.
  intros w getApartments.
  destruct (fetchApartments_and_loadMore_never_throw getApartments w)
    as (Hok & _ & Hlog).
  split; [reflexivity | split; [reflexivity | split; [exact Hok |]]].
  apply Hlog; reflexivity.
Defined.

Lemma fetchApartments_in_two_steps (getApartments : nat -> response)
  (w : world) :
  allApartments (store w) = [] ->
  exec (fetchApartments getApartments) w
  = exec (fetchApartments_resume (getApartments (fetch_calls w)))
      (exec fetchApartments_begin w).
Proof.
  intros Hempty. unfold exec, fetchApartments, mbind, M_bind.
  rewrite fetchApartments_begin_run, Hempty. reflexivity.
Qed.

Lemma fetched_world_reachable : reachable fetched_world.
Proof.
  unfold fetched_world.
  rewrite fetchApartments_in_two_steps by reflexivity.
  eapply reachable_step; [| apply step_fetch_settled; vm_compute; lia].
  eapply reachable_step; [| apply step_fetchApartments].
  apply reachable_initial.
Qed.

Lemma loading_world_reachable : reachable loading_world.
Proof.
  unfold loading_world.
  eapply reachable_step; [| apply step_fetchApartments].
  apply reachable_initial.
Qed.

Lemma reachable_paging_facts_witness :
  reachable fetched_world
  /\ (1 <= currentPage (store fetched_world))%nat
  /\ itemsPerPage (store fetched_world) = 5%nat
  /\ (length (displayedApartments (store fetched_world))
      <= length (filteredApartments (store fetched_world)))%nat.
Proof.
  split; [exact fetched_world_reachable |].
  destruct (reachable_paging_facts fetched_world fetched_world_reachable)
    as (Hp & Hi & Hl & _).
  repeat split; assumption.
Defined.

Lemma loading_flag_has_pending_work_witness :
  reachable loading_world
  /\ isLoading (store loading_world) = true
  /\ (0 < pending_fetches loading_world + pending_delays loading_world)%nat.
Proof.
  split; [exact loading_world_reachable | split; [reflexivity |]].
  apply (loading_flag_has_pending_work loading_world loading_world_reachable).
  reflexivity.
Defined.

Lemma hasMoreItems_totalPages_witness :
  reachable fetched_world
  /\ totalPages (store fetched_world) = 3%nat
  /\ (hasMoreItems (store fetched_world) = false
      <-> (totalPages (store fetched_world)
           <= currentPage (store fetched_world))%nat).
Proof.
  split; [exact fetched_world_reachable | split; [reflexivity |]].
  exact (hasMoreItems_totalPages fetched_world fetched_world_reachable).
Defined.

Lemma loadMore_times_window_witness :
  window_invariant (store fetched_world)
  /\ isLoading (store fetched_world) = false
  /\ displayedApartments (store (loadMore_times 2 fetched_world))
     = twelve_flats
  /\ hasMoreItems (store (loadMore_times 2 fetched_world)) = false.
Proof.
  assert (Hwin : window_invariant (store fetched_world)) by reflexivity.
  split; [exact Hwin | split; [reflexivity |]].
  destruct (loadMore_times_window 2 fetched_world Hwin eq_refl)
    as (Hf & _ & Hall).
  destruct Hall as [Hd Hmore]; [vm_compute; lia |].
  split; [rewrite Hd, Hf; reflexivity | exact Hmore].
Defined.

Lemma debounce_rapid_calls_postpone_witness :
  let func : string -> result unit := fun _ => Ok tt in
  let c0 := (0%nat, "a"%string) in
  let rest := [(30%nat, "b"%string); (60%nat, "c"%string)] in
  (1 <= Z.of_nat 100 <= Debounce.TIMEOUT_MAX)%Z
  /\ Debounce.chronological (c0 :: rest)
  /\ rapid 100 (c0 :: rest)
  /\ Debounce.invoked (Debounce.run func 100 (c0 :: rest)) = []
  /\ Debounce.invoked
       (Debounce.settle func (Debounce.run func 100 (c0 :: rest)))
     = [(160%nat, "c"%string)].
Proof.
  intros func c0 rest.
  assert (Hrange : (1 <= Z.of_nat 100 <= Debounce.TIMEOUT_MAX)%Z)
    by (unfold Debounce.TIMEOUT_MAX; lia).
  assert (Hchron : Debounce.chronological (c0 :: rest))
    by (simpl; repeat split; lia).
  assert (Hrapid : rapid 100 (c0 :: rest)) by (simpl; repeat split; lia).
  split; [exact Hrange | split; [exact Hchron | split; [exact Hrapid |]]].
  exact (debounce_rapid_calls_postpone func 100 c0 rest Hrange Hchron Hrapid).
Defined.

Lemma debounce_spaced_calls_all_run_witness :
  let func : string -> result unit := fun _ => Ok tt in
  let calls := [(0%nat, "a"%string); (100%nat, "b"%string);
                (350%nat, "c"%string)] in
  (1 <= Z.of_nat 100 <= Debounce.TIMEOUT_MAX)%Z
  /\ spaced 100 calls
  /\ Debounce.invoked (Debounce.settle func (Debounce.run func 100 calls))
     = [(100%nat, "a"%string); (200%nat, "b"%string); (450%nat, "c"%string)].
Proof.
  intros func calls.
  assert (Hrange : (1 <= Z.of_nat 100 <= Debounce.TIMEOUT_MAX)%Z)
    by (unfold Debounce.TIMEOUT_MAX; lia).
  assert (Hspaced : spaced 100 calls) by (simpl; repeat split; lia).
  split; [exact Hrange | split; [exact Hspaced |]].
  exact (debounce_spaced_calls_all_run func 100 calls Hrange Hspaced).
Defined.

Lemma debounce_invocations_come_from_calls_witness :
  let func : string -> result unit := fun _ => Throw TypeError in
  let calls := [(0%nat, "a"%string); (30%nat, "b"%string);
                (200%nat, "c"%string)] in
  (1 <= Z.of_nat 100 <= Debounce.TIMEOUT_MAX)%Z
  /\ Debounce.chronological calls
  /\ (length (Debounce.invoked
                (Debounce.settle func (Debounce.run func 100 calls)))
      <= 3)%nat
  /\ Debounce.queue (Debounce.settle func (Debounce.run func 100 calls)) = [].
Proof.
  intros func calls.
  assert (Hrange : (1 <= Z.of_nat 100 <= Debounce.TIMEOUT_MAX)%Z)
    by (unfold Debounce.TIMEOUT_MAX; lia).
  assert (Hchron : Debounce.chronological calls)
    by (simpl; repeat split; lia).
  split; [exact Hrange | split; [exact Hchron |]].
  destruct (debounce_invocations_come_from_calls func 100 calls Hrange Hchron)
    as (_ & Hlen & _ & Hq).
  split; [exact Hlen | exact Hq].
Defined.
